(** * automatix: the per-step command executor (automatix/command.py)

    A shallow embedding of [Command] and its helpers.  Python strings are
    [string], dictionaries whose order is irrelevant are [gmap string _],
    the decoded pipeline entry (whose first pair matters) is an association
    list, exceptions are an inductive type carried by [result], and the
    effects of [execute] (operator input, subprocesses, the logger, the
    shared variable store) are threaded through an explicit [World]. *)

From Stdlib Require Import ZArith Ascii String List Lia.
From stdpp Require Import gmap strings list fin_maps pretty.

Local Open Scope Z_scope.

(** ** Exceptions and results *)

Inductive exn :=
| UnknownCommandException (msg : string)
| AbortException (msg : string)
| KeyError (key : string)
| IndexError (msg : string)
| ValueError (msg : string)
| StopIteration
| AttributeError (msg : string)
| KeyboardInterrupt
| CalledProcessError (returncode : Z) (cmd : string).

(** [Unfinished] is only produced by the fuel-bounded loops below. *)
Inductive result (A : Type) :=
| Ret (a : A)
| Raise (e : exn)
| Unfinished.
Arguments Ret {A} a.
Arguments Raise {A} e.
Arguments Unfinished {A}.

Definition map_result {A B} (f : A → B) (r : result A) : result B :=
  match r with
  | Ret a => Ret (f a)
  | Raise e => Raise e
  | Unfinished => Unfinished
  end.

(** ** String helpers (what the [re] calls and the f-strings compute) *)

Module Str.

Definition LF : ascii := ascii_of_nat 10.
Definition DQUOTE : ascii := ascii_of_nat 34.

(** [strip_prefix p s] is [Some r] when [s = p ++ r]. *)
Fixpoint strip_prefix (p s : string) : option string :=
  match p, s with
  | EmptyString, _ => Some s
  | String a p', String b s' => if Ascii.eqb a b then strip_prefix p' s' else None
  | String _ _, EmptyString => None
  end.

(** Leftmost occurrence of a non-empty literal pattern, as [re.search]
    finds it: the text before the match and the text after it. *)
Fixpoint find_sub (p s : string) : option (string * string) :=
  match strip_prefix p s with
  | Some r => Some (EmptyString, r)
  | None =>
      match s with
      | EmptyString => None
      | String c s' =>
          match find_sub p s' with
          | Some (b, r) => Some (String c b, r)
          | None => None
          end
      end
  end.

Definition contains (p s : string) : bool :=
  match find_sub p s with Some _ => true | None => false end.

(** The longest prefix without a line feed: what [.*] matches, since
    [.] matches every character but the line feed. *)
Fixpoint first_line (s : string) : string :=
  match s with
  | EmptyString => EmptyString
  | String c s' => if Ascii.eqb c LF then EmptyString else String c (first_line s')
  end.

Fixpoint lines (s : string) : list string :=
  match s with
  | EmptyString => [EmptyString]
  | String c s' =>
      if Ascii.eqb c LF then EmptyString :: lines s'
      else match lines s' with
           | l :: ls => String c l :: ls
           | [] => [String c EmptyString]
           end
  end.

(** Split at the last occurrence of [c]. *)
Fixpoint rsplit (c : ascii) (s : string) : option (string * string) :=
  match s with
  | EmptyString => None
  | String a s' =>
      match rsplit c s' with
      | Some (l, r) => Some (String a l, r)
      | None => if Ascii.eqb a c then Some (EmptyString, s') else None
      end
  end.

(** [str.split()] on ASCII text: the runs of non-blank characters. *)
Definition is_space (c : ascii) : bool :=
  let n := nat_of_ascii c in
  (((9 <=? n) && (n <=? 13)) || ((28 <=? n) && (n <=? 32)))%nat.

Fixpoint split_go (cur s : string) : list string :=
  match s with
  | EmptyString => match cur with EmptyString => [] | _ => [cur] end
  | String c s' =>
      if is_space c then
        match cur with
        | EmptyString => split_go EmptyString s'
        | _ => cur :: split_go EmptyString s'
        end
      else split_go (cur +:+ String c EmptyString) s'
  end.

Definition split_ws (s : string) : list string := split_go EmptyString s.

(** [sep.join(l)] *)
Fixpoint join (sep : string) (l : list string) : string :=
  match l with
  | [] => EmptyString
  | [x] => x
  | x :: rest => x +:+ sep +:+ join sep rest
  end.

End Str.

(** ** The step object *)

(** A decoded YAML value: text, or a mapping, given by its keys in
    order (the decoder returns a mapping from the name to nothing for a
    value that is nothing but a name in braces). *)
Inductive yaml :=
| YStr (s : string)
| YMap (keys : list string).

(** [self.vars] is a reference to the run's shared dictionary; it lives in
    the [World] below, not in the object. *)
Record Command := mkCommand {
  pipeline_cmd : list (string * yaml);
  index : Z;
  systems : gmap string string;
  imports : list string;
  orig_key : string;
  assignment : bool;
  assignment_var : string;
  key : string;
  value : string
}.

(** [get_assignment_var]: a key without an equals sign is returned as it
    is; otherwise the two groups of the pattern are taken on the first
    line that has an equals sign, the first group (greedy) running to the
    last equals sign of that line and the second to the end of the line. *)
Definition get_assignment_var (key : string) : bool * string * string :=
  if negb (Str.contains "=" key) then (false, "", key)
  else
    match List.find (Str.contains "=") (Str.lines key) with
    | Some l =>
        match Str.rsplit "="%char l with
        | Some (g1, g2) => (true, g1, g2)
        | None => (false, "", key)
        end
    | None => (false, "", key)
    end.

(** [Command.__init__]: the loop body runs for the first pair and
    breaks.  For an empty entry the body never runs and the object has
    none of the step attributes ([None] here); [next(iter(value))] on an
    empty mapping raises [StopIteration]. *)
Definition Command_init (pipeline_cmd : list (string * yaml)) (index : Z)
    (systems : gmap string string) (imports : list string)
  : result (option Command) :=
  match pipeline_cmd with
  | [] => Ret None
  | (k, v) :: _ =>
      let '(a, av, nk) := get_assignment_var k in
      match v with
      | YMap [] => Raise StopIteration
      | YMap (k1 :: _) =>
          Ret (Some (mkCommand pipeline_cmd index systems imports k a av nk
                       ("{" +:+ k1 +:+ "}")))
      | YStr s =>
          Ret (Some (mkCommand pipeline_cmd index systems imports k a av nk s))
      end
  end.

Definition get_type (c : Command) : result string :=
  if String.eqb (key c) "local" then Ret "local"
  else if String.eqb (key c) "manual" then Ret "manual"
  else if String.eqb (key c) "python" then Ret "python"
  else if Str.contains "remote@" (key c) then Ret "remote"
  else Raise (UnknownCommandException
                ("Command type " +:+ key c +:+ " is not known.")).

(** Group 1 of the search for [remote@] followed by a greedy run of
    non-line-feed characters: the rest of the line after the leftmost
    marker. *)
Definition remote_name (key : string) : option string :=
  match Str.find_sub "remote@" key with
  | Some (_, r) => Some (Str.first_line r)
  | None => None
  end.

Definition get_system (c : Command) : result string :=
  match get_type c with
  | Ret t =>
      if String.eqb t "remote" then
        match remote_name (key c) with
        | Some h =>
            match systems c !! h with
            | Some a => Ret a
            | None => Raise (KeyError h)
            end
        | None => Raise (AttributeError "'NoneType' object has no attribute 'group'")
        end
      else Ret "localhost"
  | Raise e => Raise e
  | Unfinished => Unfinished
  end.

(** ** The resolver *)

(** [str.format] applied to the unpacked mapping [kw], with string values.  The scan follows
    CPython's markup iterator: literal text up to a brace, doubled
    braces as escapes, then a replacement field up to its closing brace;
    each field is rendered as soon as it is read, so the leftmost problem
    decides the outcome.  A field name that is empty or a number indexes
    the (empty) positional arguments.  Fields with an attribute or index
    part, a conversion or a format specification are outside this
    embedding: the outcome is [Unfinished]. *)
Module PyFormat.

Inductive mode :=
| Text
| Field (name : string).

Definition is_digit (c : ascii) : bool :=
  match Ascii.is_nat c with Some _ => true | None => false end.

Fixpoint all_digits (s : string) : bool :=
  match s with
  | EmptyString => true
  | String c s' => is_digit c && all_digits s'
  end.

Fixpoint digits_value (acc : Z) (s : string) : Z :=
  match s with
  | EmptyString => acc
  | String c s' =>
      digits_value (10 * acc + match Ascii.is_nat c with
                               | Some d => Z.of_nat d
                               | None => 0
                               end) s'
  end.

Definition PY_SSIZE_T_MAX : Z := 2 ^ 63 - 1.

(** The object a simple field name stands for. *)
Definition get_field (kw : gmap string string) (name : string) : result string :=
  if all_digits name then
    if PY_SSIZE_T_MAX <? digits_value 0 name
    then Raise (ValueError "Too many decimal digits in format string")
    else Raise (IndexError
                  ("Replacement index " +:+ pretty (digits_value 0 name) +:+
                   " out of range for positional args tuple"))
  else
    match kw !! name with
    | Some v => Ret v
    | None => Raise (KeyError name)
    end.

Fixpoint render (kw : gmap string string) (md : mode) (out s : string)
  : result string :=
  match md, s with
  | Text, EmptyString => Ret out
  | Text, String c s' =>
      if Ascii.eqb c "{" then
        match s' with
        | EmptyString => Raise (ValueError "Single '{' encountered in format string")
        | String c' s'' =>
            if Ascii.eqb c' "{" then render kw Text (out +:+ "{") s''
            else render kw (Field "") out s'
        end
      else if Ascii.eqb c "}" then
        match s' with
        | EmptyString => Raise (ValueError "Single '}' encountered in format string")
        | String c' s'' =>
            if Ascii.eqb c' "}" then render kw Text (out +:+ "}") s''
            else Raise (ValueError "Single '}' encountered in format string")
        end
      else render kw Text (out +:+ String c "") s'
  | Field _, EmptyString => Raise (ValueError "expected '}' before end of string")
  | Field name, String c s' =>
      if Ascii.eqb c "}" then
        match get_field kw name with
        | Ret v => render kw Text (out +:+ v) s'
        | Raise e => Raise e
        | Unfinished => Unfinished
        end
      else if Ascii.eqb c "{" then Raise (ValueError "unexpected '{' in field name")
      else if Ascii.eqb c "." || Ascii.eqb c "[" || Ascii.eqb c "!" || Ascii.eqb c ":"
      then Unfinished
      else render kw (Field (name +:+ String c "")) out s'
  end.

Definition format (template : string) (kw : gmap string string) : result string :=
  render kw Text "" template.

(** The characters that end a field name or start its compound part. *)
Definition special (c : ascii) : bool :=
  Ascii.eqb c "{" || Ascii.eqb c "}" || Ascii.eqb c "." || Ascii.eqb c "["
  || Ascii.eqb c "!" || Ascii.eqb c ":".

(** A name made of none of them. *)
Fixpoint plain (s : string) : bool :=
  match s with
  | EmptyString => true
  | String c s' => negb (special c) && plain s'
  end.


End PyFormat.

(** [shlex.quote] *)
Module Shlex.

Definition is_safe (c : ascii) : bool :=
  let n := nat_of_ascii c in
  ((97 <=? n) && (n <=? 122))%nat || ((65 <=? n) && (n <=? 90))%nat
  || ((48 <=? n) && (n <=? 57))%nat
  || Ascii.eqb c "_" || Ascii.eqb c "@" || Ascii.eqb c "%" || Ascii.eqb c "+"
  || Ascii.eqb c "=" || Ascii.eqb c ":" || Ascii.eqb c "," || Ascii.eqb c "."
  || Ascii.eqb c "/" || Ascii.eqb c "-".

Fixpoint all_safe (s : string) : bool :=
  match s with
  | EmptyString => true
  | String c s' => is_safe c && all_safe s'
  end.

(** Every single quote becomes: quote, double quote, quote, double
    quote, quote. *)
Fixpoint escape (s : string) : string :=
  match s with
  | EmptyString => EmptyString
  | String c s' =>
      if Ascii.eqb c "'"
      then String "'" (String Str.DQUOTE (String "'" (String Str.DQUOTE
             (String "'" (escape s')))))
      else String c (escape s')
  end.

Definition quote (s : string) : string :=
  match s with
  | EmptyString => "''"
  | _ => if all_safe s then s else "'" +:+ escape s +:+ "'"
  end.

End Shlex.

(** ** The surroundings of a run *)

Inductive level := DEBUG | INFO | NOTICE | WARNING | ERROR.

(** What the step does to the outside, in order.  The three uses of
    [subprocess.run] are told apart by their place in the source. *)
Inductive event :=
| Log (lv : level) (msg : string)
| Prompt (text : string)
| Shell (cmd : string) (capture : bool)
| Kill (cmd : string)
| Cleanup (cmd : string)
| PidQuery (cmd : string)
| Exec (code : string).

(** A subprocess ends with a return code and its standard output, or the
    operator interrupts the wait for it. *)
Inductive proc_result :=
| Exited (returncode : Z) (stdout : string)
| Interrupted.

(** What evaluating Python text does: it ends, having changed the
    variable store and (for an expression) produced a value; it is
    interrupted; or it raises. *)
Inductive exec_result :=
| Evaluated (effect : gmap string string → gmap string string) (v : string)
| ExecInterrupted
| ExecFailed (msg : string).

(** An endless supply of answers, read from the front. *)
Definition stream (A : Type) := nat → A.
Definition hd {A} (s : stream A) : A := s 0%nat.
Definition tl {A} (s : stream A) : stream A := λ n, s (S n).

(** [vars] is the run's shared variable store ([self.vars]).  The
    streams hold what the surroundings will answer: the operator's
    lines, the outcomes of the commands [_run_local_command] launches,
    exit status and output of the remote process listings, exit status
    of the removals of the staging directory, the outcomes of [exec].
    End of input on the terminal and interrupts outside the two guarded
    calls are not part of the embedding. *)
Record World := mkWorld {
  vars : gmap string string;
  typed : stream string;
  procs : stream proc_result;
  listings : stream (Z * string);
  removals : stream Z;
  evals : stream exec_result;
  trace : list event
}.

Definition M (A : Type) := World → result A * World.

Definition ret {A} (a : A) : M A := λ w, (Ret a, w).
Definition raise {A} (e : exn) : M A := λ w, (Raise e, w).
Definition bind {A B} (m : M A) (k : A → M B) : M B :=
  λ w, match m w with
       | (Ret a, w') => k a w'
       | (Raise e, w') => (Raise e, w')
       | (Unfinished, w') => (Unfinished, w')
       end.

Declare Scope py_scope.
Delimit Scope py_scope with py.
Notation "x <- m ;; k" := (bind m (λ x, k))
  (at level 100, m at next level, right associativity) : py_scope.
Notation "m ;; k" := (bind m (λ _, k))
  (at level 100, right associativity) : py_scope.
Local Open Scope py_scope.

(** A pure computation that may raise. *)
Definition lift {A} (r : result A) : M A := λ w, (r, w).

(** [try: m except KeyboardInterrupt: h] *)
Definition on_interrupt {A} (m : M A) (h : M A) : M A :=
  λ w, match m w with
       | (Raise KeyboardInterrupt, w') => h w'
       | other => other
       end.

Definition emit (e : event) : M unit :=
  λ w, (Ret tt, mkWorld (vars w) (typed w) (procs w) (listings w) (removals w)
                        (evals w) (trace w ++ [e])).

Definition log (lv : level) (msg : string) : M unit := emit (Log lv msg).

(** [input(text)] *)
Definition input (text : string) : M string :=
  λ w, (Ret (hd (typed w)),
        mkWorld (vars w) (tl (typed w)) (procs w) (listings w) (removals w)
                (evals w) (trace w ++ [Prompt text])).

Definition set_var (name v : string) : M unit :=
  λ w, (Ret tt, mkWorld (<[name := v]> (vars w)) (typed w) (procs w) (listings w)
                        (removals w) (evals w) (trace w)).

Definition update_vars (f : gmap string string → gmap string string) : M unit :=
  λ w, (Ret tt, mkWorld (f (vars w)) (typed w) (procs w) (listings w)
                        (removals w) (evals w) (trace w)).

Definition next_proc : M proc_result :=
  λ w, (Ret (hd (procs w)),
        mkWorld (vars w) (typed w) (tl (procs w)) (listings w) (removals w)
                (evals w) (trace w)).

Definition next_listing : M (Z * string) :=
  λ w, (Ret (hd (listings w)),
        mkWorld (vars w) (typed w) (procs w) (tl (listings w)) (removals w)
                (evals w) (trace w)).

Definition next_removal : M Z :=
  λ w, (Ret (hd (removals w)),
        mkWorld (vars w) (typed w) (procs w) (listings w) (tl (removals w))
                (evals w) (trace w)).

Definition next_eval : M exec_result :=
  λ w, (Ret (hd (evals w)),
        mkWorld (vars w) (typed w) (procs w) (listings w) (removals w)
                (tl (evals w)) (trace w)).

(** [for x in l: body x] *)
Fixpoint for_each {A} (l : list A) (body : A → M unit) : M unit :=
  match l with
  | [] => ret tt
  | x :: rest => body x ;; for_each rest body
  end.

Section Resolver.

(** The process-wide constants of [automatix/constants.py], which is not
    part of the sources at hand: taken as a parameter. *)
Variable CONSTANTS : gmap string string.

(** The copy of the run's variables with every constant written over it
    under its [const_] name. *)
Definition merged_variables (vars : gmap string string) : gmap string string :=
  map_fold (λ key value variables, <["const_" +:+ key := value]> variables)
           vars CONSTANTS.

Definition get_resolved_value (c : Command) (vars : gmap string string)
  : result string :=
  PyFormat.format (value c) (merged_variables vars).

(** [self.get_resolved_value()] in the running step *)
Definition resolved (c : Command) : M string :=
  λ w, (get_resolved_value c (vars w), w).

Definition IMPORT_PATH : string := ".".
Definition REMOTE_TMP_DIR : string := "automatix_tmp".
(** [SSH_CMD.format(hostname=hostname)] *)
Definition ssh_cmd_for (hostname : string) : string :=
  "ssh " +:+ hostname +:+ " sudo ".

Definition _build_command (c : Command) (path : string) : M string :=
  match imports c with
  | [] => resolved c
  | _ =>
      v <- resolved c ;;
      ret (". " +:+ path +:+ "/" +:+
           Str.join ("; . " +:+ path +:+ "/") (imports c) +:+ "; " +:+ v)
  end.

Definition _run_local_command (c : Command) (cmd : string) : M Z :=
  log DEBUG ("Executing: " +:+ cmd) ;;
  emit (Shell cmd (assignment c)) ;;
  r <- next_proc ;;
  match r with
  | Interrupted => raise KeyboardInterrupt
  | Exited returncode output =>
      if assignment c then
        set_var (assignment_var c) output ;;
        log INFO ("Variable " +:+ assignment_var c +:+ " = " +:+ output) ;;
        ret returncode
      else ret returncode
  end.

Definition interrupted_msg : string :=
  "Abort command by user key stroke. Exit code is set to 130.".

Definition _local_action (c : Command) : M Z :=
  cmd <- _build_command c IMPORT_PATH ;;
  on_interrupt (_run_local_command c cmd)
               (log INFO interrupted_msg ;; ret 130).

Definition _python_action (c : Command) : M Z :=
  cmd <- resolved c ;;
  log DEBUG ("Run python command: " +:+ cmd) ;;
  match assignment_var c with
  | EmptyString =>
      emit (Exec cmd) ;;
      r <- next_eval ;;
      match r with
      | Evaluated effect _ => update_vars effect ;; ret 0
      | ExecInterrupted => log INFO interrupted_msg ;; ret 130
      | ExecFailed msg => log ERROR msg ;; ret 1
      end
  | _ =>
      emit (Exec ("self.vars[self.assignment_var] = " +:+ cmd)) ;;
      r <- next_eval ;;
      match r with
      | Evaluated effect v =>
          update_vars (λ m, <[assignment_var c := v]> (effect m)) ;;
          log INFO ("Variable " +:+ assignment_var c +:+ " = " +:+ v) ;;
          ret 0
      | ExecInterrupted => log INFO interrupted_msg ;; ret 130
      | ExecFailed msg => log ERROR msg ;; ret 1
      end
  end.

(** [check_output] raises when the listing exits with a status other
    than 0. *)
Definition get_remote_pids (hostname cmd : string) : M (list string) :=
  let ps_cmd := "ps axu | grep " +:+ Shlex.quote cmd +:+
                " | grep -v 'grep' | awk '{print $2}'" in
  let cmd := "ssh " +:+ hostname +:+ " " +:+ Shlex.quote ps_cmd +:+ " 2>&1" in
  emit (PidQuery cmd) ;;
  r <- next_listing ;;
  if fst r =? 0 then ret (Str.split_ws (snd r))
  else raise (CalledProcessError (fst r) cmd).

Definition signal_prompt : string :=
  "What should I do? (i: send SIGINT (default), t: send SIGTERM, k: send SIGKILL, p: do nothing and proceed) ".

(** The [while ps_pids] loop of the interrupt handler; [fuel] bounds
    the number of rounds. *)
Fixpoint escalate (fuel : nat) (c : Command) (hostname ssh_cmd : string)
    (ps_pids : list string) : M unit :=
  match ps_pids with
  | [] => ret tt
  | _ =>
      match fuel with
      | O => lift Unfinished
      | S fuel' =>
          log NOTICE ("Remote command seems still to be running! Found PIDs: "
                      +:+ Str.join "," ps_pids) ;;
          answer <- input signal_prompt ;;
          if String.eqb answer "p" then ret tt
          else
            let signal := if String.eqb answer "t" then "TERM"
                          else if String.eqb answer "k" then "KILL"
                          else "INT" in
            for_each ps_pids (λ pid,
              log INFO ("Kill " +:+ pid +:+ " on " +:+ hostname) ;;
              emit (Kill (ssh_cmd +:+ " kill -" +:+ signal +:+ " " +:+ pid))) ;;
            v <- resolved c ;;
            ps_pids' <- get_remote_pids hostname v ;;
            escalate fuel' c hostname ssh_cmd ps_pids'
      end
  end.

Definition _remote_action (fuel : nat) (c : Command) : M Z :=
  hostname <- lift (get_system c) ;;
  let ssh_cmd := ssh_cmd_for hostname in
  remote_cmd <- resolved c ;;
  staged <- match imports c with
            | [] => ret (EmptyString, remote_cmd)
            | _ =>
                b <- _build_command c REMOTE_TMP_DIR ;;
                ret ("tar -C " +:+ IMPORT_PATH +:+ " -cf - " +:+
                     Str.join " " (imports c) +:+ " | ",
                     "mkdir " +:+ REMOTE_TMP_DIR +:+ "; tar -C " +:+
                     REMOTE_TMP_DIR +:+ " -xf -; " +:+ b)
            end ;;
  let cmd := fst staged +:+ ssh_cmd +:+
             Shlex.quote ("bash -c " +:+ Shlex.quote (snd staged)) in
  exitcode <- on_interrupt (_run_local_command c cmd)
                (log INFO interrupted_msg ;;
                 v <- resolved c ;;
                 ps_pids <- get_remote_pids hostname v ;;
                 escalate fuel c hostname ssh_cmd ps_pids ;;
                 log INFO ("Keystroke interrupt handled." +:+ String Str.LF "") ;;
                 ret 130) ;;
  match imports c with
  | [] => ret tt
  | _ =>
      let cleanup_cmd := ssh_cmd +:+ " rm -r " +:+ REMOTE_TMP_DIR in
      log DEBUG ("Executing: " +:+ cleanup_cmd) ;;
      emit (Cleanup cleanup_cmd) ;;
      returncode <- next_removal ;;
      if returncode =? 0 then ret tt
      else log WARNING ("Failed to remove " +:+ REMOTE_TMP_DIR +:+
                        ", exitcode: " +:+ pretty returncode)
  end ;;
  ret exitcode.

(** The three dispatch tests of [execute], in their order; the return
    code starts at 0. *)
Definition dispatch (fuel : nat) (c : Command) : M Z :=
  t <- lift (get_type c) ;;
  return_code <- (if String.eqb t "local" then _local_action c else ret 0) ;;
  t <- lift (get_type c) ;;
  return_code <- (if String.eqb t "python" then _python_action c
                  else ret return_code) ;;
  t <- lift (get_type c) ;;
  if String.eqb t "remote" then _remote_action fuel c else ret return_code.

Definition gate_prompt : string :=
  "Proceed? (p: proceed (default), s: skip, a: abort)".
Definition failure_prompt : string :=
  "What should I do? (p: proceed (default), r: retry, a: abort)".

Definition notice_msg (c : Command) (v : string) : string :=
  String Str.LF "" +:+ "(" +:+ pretty (index c) +:+ ") [" +:+ orig_key c +:+ "]: " +:+ v.
Definition failed_msg (c : Command) (return_code : Z) : string :=
  "Command (" +:+ pretty (index c) +:+ ") failed with return code " +:+
  pretty return_code +:+ ".".

(** The body of [execute] up to the test of the return code: the
    notice, the manual gate and the dispatch.  [None] is the [return] at
    the gate (skip), [Some return_code] the way on. *)
Definition step_body (fuel : nat) (c : Command) (interactive : bool)
  : M (option Z) :=
  v <- resolved c ;;
  log NOTICE (notice_msg c v) ;;
  t <- lift (get_type c) ;;
  if String.eqb t "manual" || interactive then
    answer <- input gate_prompt ;;
    if String.eqb answer "s" then ret None
    else if String.eqb answer "a" then raise (AbortException (pretty 1))
    else (return_code <- dispatch fuel c ;; ret (Some return_code))
  else (return_code <- dispatch fuel c ;; ret (Some return_code)).

(** [execute]; [fuel] bounds the depth of the retries (and the rounds
    of the signal loop).  The retry calls [self.execute(interactive)],
    with [force] at its default. *)
Fixpoint execute (fuel : nat) (c : Command) (interactive force : bool)
  : M unit :=
  match fuel with
  | O => lift Unfinished
  | S fuel' =>
      r <- step_body fuel' c interactive ;;
      match r with
      | None => ret tt
      | Some return_code =>
          if return_code =? 0 then ret tt
          else
            log ERROR (failed_msg c return_code) ;;
            if force then ret tt
            else
              err_answer <- input failure_prompt ;;
              if String.eqb err_answer "r" then execute fuel' c interactive false
              else if String.eqb err_answer "a"
              then raise (AbortException (pretty return_code))
              else ret tt
      end
  end.

End Resolver.


(** The attributes [__init__] sets from the entry's pair. *)
Definition step_attributes (c : Command) : string * bool * string * string * string :=
  (orig_key c, assignment c, assignment_var c, key c, value c).

(** ** Vocabulary of the statements *)

Definition add_events (w : World) (evs : list event) : World :=
  mkWorld (vars w) (typed w) (procs w) (listings w) (removals w) (evals w)
          (trace w ++ evs).

Definition is_cleanup (e : event) : bool :=
  match e with Cleanup _ => true | _ => false end.
Definition is_pid_query (e : event) : bool :=
  match e with PidQuery _ => true | _ => false end.
Definition is_log (e : event) : bool :=
  match e with Log _ _ => true | _ => false end.
(** The events of the signal loop: messages, prompts, kills, listings. *)
Definition is_loop_event (e : event) : bool :=
  match e with
  | Log _ _ | Prompt _ | Kill _ | PidQuery _ => true
  | _ => false
  end.

(** The process ids the loop holds in its round [j]: those it was entered
    with, then the answers of the listings. *)
Definition round_pids (ps_pids : list string) (w : World) (j : nat) : list string :=
  match j with
  | O => ps_pids
  | S j' => Str.split_ws (snd (listings w j'))
  end.

Definition kill_events (hostname ssh_cmd signal : string) (ps_pids : list string)
  : list event :=
  flat_map (λ pid, [Log INFO ("Kill " +:+ pid +:+ " on " +:+ hostname);
                    Kill (ssh_cmd +:+ " kill -" +:+ signal +:+ " " +:+ pid)]) ps_pids.

(** The operator's next line has been read. *)
Definition read_line (w : World) : World :=
  mkWorld (vars w) (tl (typed w)) (procs w) (listings w) (removals w) (evals w)
          (trace w).
Definition listed (w : World) : World :=
  mkWorld (vars w) (typed w) (procs w) (tl (listings w)) (removals w) (evals w)
          (trace w).
Definition launched (w : World) : World :=
  mkWorld (vars w) (typed w) (tl (procs w)) (listings w) (removals w) (evals w)
          (trace w).
Definition removed (w : World) : World :=
  mkWorld (vars w) (typed w) (procs w) (listings w) (tl (removals w)) (evals w)
          (trace w).

(** The world once the notice is out and the gate has been answered. *)
Definition past_gate (c : Command) (v : string) (w : World) : World :=
  read_line (add_events w [Log NOTICE (notice_msg c v); Prompt gate_prompt]).

(** The world once a failure is reported and the failure gate has been
    answered. *)
Definition past_failure_gate (c : Command) (return_code : Z) (w : World) : World :=
  read_line (add_events w [Log ERROR (failed_msg c return_code); Prompt failure_prompt]).

(** The calls that launch or evaluate something. *)
Definition is_dispatch_event (e : event) : bool :=
  match e with
  | Shell _ _ | Kill _ | Cleanup _ | PidQuery _ | Exec _ => true
  | Log _ _ | Prompt _ => false
  end.

(** ** Sample steps and surroundings *)

Module Sample.

Definition constants : gmap string string := {["HOME" := "/srv"]}.

Definition hosts : gmap string string := {["web1" := "10.0.0.1"]}.

Definition step (key value : string) (imports : list string) : Command :=
  mkCommand [(key, YStr value)] 1 hosts imports key false "" key value.

Definition remote_step : Command := step "remote@web1" "sleep 100" ["lib.sh"].
Definition lost_step : Command := step "remote@db" "uptime" [].
Definition local_step : Command := step "local" "make test" [].
Definition manual_step : Command := step "manual" "Flip the switch" [].
Definition home_step : Command := step "local" "cd {const_HOME} && ls {dir}" [].
Definition unbound_step : Command := step "local" "echo {nope}" [].

(** Every command exits with [code]; the operator types the lines of
    [answers], then [p] for ever; the listings print [pids], then
    nothing; every removal exits with 1. *)
Definition world (code : Z) (answers pids : list string) : World :=
  mkWorld {["dir" := "x"]}
          (λ n, nth n answers "p")
          (λ _, Exited code "")
          (λ n, (0, nth n pids ""))
          (λ _, 1)
          (λ _, ExecFailed "boom")
          [].

(** The same, with the wait for every command interrupted. *)
Definition interrupted_world (answers pids : list string) : World :=
  mkWorld {["dir" := "x"]}
          (λ n, nth n answers "p")
          (λ _, Interrupted)
          (λ n, (0, nth n pids ""))
          (λ _, 1)
          (λ _, ExecFailed "boom")
          [].

(** The wait is interrupted and the remote host no longer answers: the
    listing exits with ssh's status 255. *)
Definition unreachable_world : World :=
  mkWorld {["dir" := "x"]}
          (λ _, "p")
          (λ _, Interrupted)
          (λ _, (255, "ssh: connect to host 10.0.0.1 port 22: Connection timed out"))
          (λ _, 0)
          (λ _, ExecFailed "boom")
          [].

End Sample.

(** ** Vocabulary of the further properties *)

(** The character [c] occurs in [s]. *)
Definition has_char (c : ascii) (s : string) : bool := Str.contains (String c "") s.

(** The text that sources every import from [path], in order, before
    the command [v]. *)
(** The variable [name] has been set to [v]. *)
Definition captured (name v : string) (w : World) : World :=
  mkWorld (<[name := v]> (vars w)) (typed w) (procs w) (listings w) (removals w)
          (evals w) (trace w).

(** The command the remote executor launches on the local side. *)
Definition remote_command (c : Command) (hostname v : string) : string :=
  match imports c with
  | [] => ssh_cmd_for hostname +:+ Shlex.quote ("bash -c " +:+ Shlex.quote v)
  | _ =>
      ("tar -C " +:+ IMPORT_PATH +:+ " -cf - " +:+ Str.join " " (imports c) +:+ " | ")
      +:+ ssh_cmd_for hostname +:+
      Shlex.quote ("bash -c " +:+ Shlex.quote
        ("mkdir " +:+ REMOTE_TMP_DIR +:+ "; tar -C " +:+ REMOTE_TMP_DIR +:+ " -xf -; "
         +:+ ". " +:+ REMOTE_TMP_DIR +:+ "/" +:+
         Str.join ("; . " +:+ REMOTE_TMP_DIR +:+ "/") (imports c) +:+ "; " +:+ v))
  end.

Definition cleanup_command (hostname : string) : string :=
  ssh_cmd_for hostname +:+ " rm -r " +:+ REMOTE_TMP_DIR.

Definition is_prompt (e : event) : bool :=
  match e with Prompt _ => true | _ => false end.

Definition is_shell (e : event) : bool :=
  match e with Shell _ _ => true | _ => false end.

Definition is_kill (e : event) : bool :=
  match e with Kill _ => true | _ => false end.

(** The signal an answer of the signal loop selects. *)
Definition signal_of (answer : string) : string :=
  if String.eqb answer "t" then "TERM"
  else if String.eqb answer "k" then "KILL" else "INT".

Fixpoint no_blank (s : string) : bool :=
  match s with
  | EmptyString => true
  | String c s' => negb (Str.is_space c) && no_blank s'
  end.

Fixpoint all_blank (s : string) : bool :=
  match s with
  | EmptyString => true
  | String c s' => Str.is_space c && all_blank s'
  end.

Definition sourced (path : string) (imports : list string) (v : string) : string :=
  fold_right (λ imp acc, ". " +:+ path +:+ "/" +:+ imp +:+ "; " +:+ acc) v imports.

(** ** Further sample steps and surroundings *)

Module Cases.

Definition reader_step : Command := Sample.step "local" "echo {out}" [].

(** A remote step without imports. *)
Definition unstaged_step : Command := Sample.step "remote@web1" "uptime" [].


End Cases.

(** * Properties *)

(** ** Strings *)

Lemma app_cons (c : ascii) (s t : string) : String c s +:+ t = String c (s +:+ t).
Proof. reflexivity. Qed.

Lemma app_empty_l (t : string) : "" +:+ t = t.
Proof. reflexivity. Qed.

Lemma strip_prefix_app (p r : string) : Str.strip_prefix p (p +:+ r) = Some r.
Proof.
  induction p as [|a p IH]; [reflexivity|].
  rewrite app_cons. simpl. by rewrite Ascii.eqb_refl.
Qed.

Lemma strip_prefix_Some (p s r : string) :
  Str.strip_prefix p s = Some r → s = p +:+ r.
Proof.
  revert s. induction p as [|a p IH]; intros s H.
  - simpl in H. by inversion H.
  - destruct s as [|b s]; simpl in H; [discriminate|].
    destruct (Ascii.eqb a b) eqn:E; [|discriminate].
    apply Ascii.eqb_eq in E as ->. rewrite app_cons. f_equal. by apply IH.
Qed.

Lemma find_sub_unfold (p s : string) :
  Str.find_sub p s =
  match Str.strip_prefix p s with
  | Some r => Some ("", r)
  | None =>
      match s with
      | "" => None
      | String c s' =>
          match Str.find_sub p s' with
          | Some (b, r) => Some (String c b, r)
          | None => None
          end
      end
  end.
Proof. by destruct s. Qed.

Lemma find_sub_Some (p s b r : string) :
  Str.find_sub p s = Some (b, r) → s = b +:+ p +:+ r.
Proof.
  revert b. induction s as [|c s IH]; intros b; rewrite find_sub_unfold.
  - destruct (Str.strip_prefix p "") eqn:E; [|done].
    intros [= <- <-]. rewrite app_empty_l. by apply strip_prefix_Some.
  - destruct (Str.strip_prefix p (String c s)) eqn:E.
    + intros [= <- <-]. rewrite app_empty_l. by apply strip_prefix_Some.
    + destruct (Str.find_sub p s) as [[b' r']|] eqn:F; [|done].
      intros [= <- <-]. rewrite app_cons. f_equal. by apply IH.
Qed.

Lemma find_sub_app (p b r : string) :
  ∃ b' r', Str.find_sub p (b +:+ p +:+ r) = Some (b', r').
Proof.
  induction b as [|c b (b' & r' & IH)]; rewrite find_sub_unfold.
  - rewrite app_empty_l, strip_prefix_app. eauto.
  - destruct (Str.strip_prefix p _); [eauto|].
    rewrite app_cons, IH. eauto.
Qed.

Lemma find_sub_prefix (p r : string) : Str.find_sub p (p +:+ r) = Some ("", r).
Proof. by rewrite find_sub_unfold, strip_prefix_app. Qed.

(** [Str.contains] decides the occurrence of the pattern. *)
Lemma contains_iff (p s : string) :
  Str.contains p s = true ↔ ∃ b r, s = b +:+ p +:+ r.
Proof.
  unfold Str.contains. split.
  - destruct (Str.find_sub p s) as [[b r]|] eqn:E; [|discriminate].
    intros _. exists b, r. by apply find_sub_Some.
  - intros (b & r & ->). by destruct (find_sub_app p b r) as (b' & r' & ->).
Qed.

(** ** Classification and host lookup *)

Lemma get_type_cases (c : Command) :
  (key c = "local" ∧ get_type c = Ret "local") ∨
  (key c = "manual" ∧ get_type c = Ret "manual") ∨
  (key c = "python" ∧ get_type c = Ret "python") ∨
  (key c ≠ "local" ∧ key c ≠ "manual" ∧ key c ≠ "python" ∧
   Str.contains "remote@" (key c) = true ∧ get_type c = Ret "remote") ∨
  (key c ≠ "local" ∧ key c ≠ "manual" ∧ key c ≠ "python" ∧
   Str.contains "remote@" (key c) = false ∧
   get_type c = Raise (UnknownCommandException
                         ("Command type " +:+ key c +:+ " is not known."))).
Proof.
  unfold get_type.
  destruct (String.eqb_spec (key c) "local") as [->|H1]; [by left|].
  destruct (String.eqb_spec (key c) "manual") as [->|H2]; [by right; left|].
  destruct (String.eqb_spec (key c) "python") as [->|H3]; [by right; right; left|].
  destruct (Str.contains "remote@" (key c)) eqn:E.
  - by right; right; right; left.
  - by right; right; right; right.
Qed.

Lemma remote_name_Some (k h : string) :
  remote_name k = Some h →
  ∃ pre rest, k = pre +:+ "remote@" +:+ rest ∧ h = Str.first_line rest.
Proof.
  unfold remote_name.
  destruct (Str.find_sub "remote@" k) as [[pre rest]|] eqn:E; [|discriminate].
  intros [= <-]. exists pre, rest. split; [by apply find_sub_Some|done].
Qed.

Lemma remote_name_prefix (rest : string) :
  remote_name ("remote@" +:+ rest) = Some (Str.first_line rest).
Proof. unfold remote_name. by rewrite find_sub_prefix. Qed.

Lemma get_type_remote_prefix (c : Command) (rest : string) :
  key c = "remote@" +:+ rest → get_type c = Ret "remote".
Proof.
  intros Hk. unfold get_type. rewrite Hk.
  assert (Str.contains "remote@" ("remote@" +:+ rest) = true) as ->.
  { unfold Str.contains. by rewrite find_sub_prefix. }
  reflexivity.
Qed.

(** C4.  Classification of the normalised key: [local], [manual] and
    [python] exactly for the keys equal to these words, [remote] exactly
    for the keys in which the marker [remote@] occurs, and for every other
    key [UnknownCommandException] with a message that names the key.  The
    host name of a remote key is the text that follows the leftmost marker
    on its line. *)
Theorem C4_get_type_classifies (c : Command) :
  (get_type c = Ret "local" ↔ key c = "local") ∧
  (get_type c = Ret "manual" ↔ key c = "manual") ∧
  (get_type c = Ret "python" ↔ key c = "python") ∧
  (get_type c = Ret "remote" ↔ ∃ pre rest, key c = pre +:+ "remote@" +:+ rest) ∧
  ((∃ e, get_type c = Raise e) ↔
   key c ≠ "local" ∧ key c ≠ "manual" ∧ key c ≠ "python" ∧
   ¬ ∃ pre rest, key c = pre +:+ "remote@" +:+ rest) ∧
  (∀ e, get_type c = Raise e →
     e = UnknownCommandException ("Command type " +:+ key c +:+ " is not known.")) ∧
  (∀ t, get_type c = Ret t →
     if String.eqb t "remote"
     then ∃ pre rest, key c = pre +:+ "remote@" +:+ rest ∧
                      remote_name (key c) = Some (Str.first_line rest)
     else True).
Proof.
  rewrite <- contains_iff.
  destruct (get_type_cases c) as
    [[Hk Ht]|[[Hk Ht]|[[Hk Ht]|[(H1 & H2 & H3 & Hc & Ht)|(H1 & H2 & H3 & Hc & Ht)]]]];
    rewrite Ht; try rewrite Hk.
  - split_and!; try done; try (split; [by intros [e He]|by intros (? & _)]).
    by intros t [= <-].
  - split_and!; try done; try (split; [by intros [e He]|by intros (_ & ? & _)]).
    by intros t [= <-].
  - split_and!; try done; try (split; [by intros [e He]|by intros (_ & _ & ? & _)]).
    by intros t [= <-].
  - split_and!; try done.
    + split; [by intros [e He]|]. by intros (_ & _ & _ & Hn).
    + intros t [= <-]. simpl.
      unfold remote_name, Str.contains in *.
      destruct (Str.find_sub "remote@" (key c)) as [[pre rest]|] eqn:E; [|done].
      exists pre, rest. split; [by apply find_sub_Some|done].
  - split_and!; try done.
    + split; [done|by rewrite Hc].
    + split; [|eauto]. intros _. split_and!; try done. by rewrite Hc.
    + by intros e [= <-].
Qed.

(** C5.  For a key [remote@<h>], where [<h>] is the host part the
    pattern takes (the text after the marker up to the end of its line):
    host resolution returns [systems[<h>]] when [<h>] is registered and
    fails with the lookup error ([KeyError] on [<h>]) when it is not. *)
Theorem C5_get_system_remote (c : Command) (rest : string) :
  key c = "remote@" +:+ rest →
  (∀ a, systems c !! Str.first_line rest = Some a → get_system c = Ret a) ∧
  (systems c !! Str.first_line rest = None →
   get_system c = Raise (KeyError (Str.first_line rest))).
Proof.
  intros Hk. unfold get_system.
  rewrite (get_type_remote_prefix c rest Hk). simpl.
  rewrite Hk, remote_name_prefix.
  split; [intros a ->|intros ->]; reflexivity.
Qed.

(** C10.  For a step whose kind is [local], [manual] or [python], host
    resolution returns the text [localhost], whatever the systems
    mapping holds. *)
Theorem C10_get_system_localhost (c : Command) (t : string) :
  get_type c = Ret t → t ≠ "remote" →
  (t = "local" ∨ t = "manual" ∨ t = "python") ∧
  ∀ systems', get_system (mkCommand (pipeline_cmd c) (index c) systems' (imports c)
                            (orig_key c) (assignment c) (assignment_var c)
                            (key c) (value c)) = Ret "localhost".
Proof.
  intros Ht Hne.
  assert (t = "local" ∨ t = "manual" ∨ t = "python") as Hkind.
  { destruct (get_type_cases c) as
      [[_ H]|[[_ H]|[[_ H]|[(_ & _ & _ & _ & H)|(_ & _ & _ & _ & H)]]]];
      rewrite H in Ht; inversion Ht; subst; auto; done. }
  split; [done|]. intros systems'.
  unfold get_system.
  assert (get_type (mkCommand (pipeline_cmd c) (index c) systems' (imports c)
                      (orig_key c) (assignment c) (assignment_var c)
                      (key c) (value c)) = get_type c) as -> by reflexivity.
  rewrite Ht. by destruct Hkind as [->|[->| ->]].
Qed.

(** ** The resolver *)


Lemma app_empty_r (s : string) : s +:+ "" = s.
Proof. induction s as [|c s IH]; [done|]. by rewrite app_cons, IH. Qed.

Lemma app_assoc (s t u : string) : (s +:+ t) +:+ u = s +:+ t +:+ u.
Proof. induction s as [|c s IH]; [done|]. by rewrite !app_cons, IH. Qed.

Section ResolverFacts.
Variable CONSTANTS : gmap string string.

Lemma merged_variables_lookup (vars : gmap string string) (n : string) :
  merged_variables CONSTANTS vars !! n =
  match Str.strip_prefix "const_" n with
  | Some k => match CONSTANTS !! k with Some v => Some v | None => vars !! n end
  | None => vars !! n
  end.
Proof.
  unfold merged_variables. revert n.
  apply (map_fold_weak_ind (λ r (m : gmap string string), ∀ n,
    r !! n = match Str.strip_prefix "const_" n with
             | Some k => match m !! k with Some v => Some v | None => vars !! n end
             | None => vars !! n
             end)).
  - intros n. destruct (Str.strip_prefix "const_" n); by rewrite ?lookup_empty.
  - intros i x m r Hi IH n.
    destruct (decide (n = "const_" +:+ i)) as [->|Hne].
    + by rewrite lookup_insert_eq, strip_prefix_app, lookup_insert_eq.
    + rewrite lookup_insert_ne by done. rewrite IH.
      destruct (Str.strip_prefix "const_" n) as [k|] eqn:E; [|done].
      apply strip_prefix_Some in E. subst n.
      rewrite lookup_insert_ne; [done|]. by intros ->.
Qed.

Lemma merged_variables_const (vars : gmap string string) (k v : string) :
  CONSTANTS !! k = Some v → merged_variables CONSTANTS vars !! ("const_" +:+ k) = Some v.
Proof. intros H. by rewrite merged_variables_lookup, strip_prefix_app, H. Qed.

Lemma merged_variables_other (vars : gmap string string) (n : string) :
  (∀ k, n = "const_" +:+ k → CONSTANTS !! k = None) →
  merged_variables CONSTANTS vars !! n = vars !! n.
Proof.
  intros H. rewrite merged_variables_lookup.
  destruct (Str.strip_prefix "const_" n) as [k|] eqn:E; [|done].
  apply strip_prefix_Some in E. by rewrite (H k E).
Qed.

End ResolverFacts.

(** ** The template scan *)
Import PyFormat.

Lemma render_text_cons (kw : gmap string string) (out : string) (c : ascii) (s : string) :
  Ascii.eqb c "{" = false → Ascii.eqb c "}" = false →
  render kw Text out (String c s) = render kw Text (out +:+ String c "") s.
Proof. intros H1 H2. simpl. by rewrite H1, H2. Qed.

Lemma render_field_end (kw : gmap string string) (name out t : string) :
  render kw (Field name) out (String "}" t) =
  match get_field kw name with
  | Ret v => render kw Text (out +:+ v) t
  | Raise e => Raise e
  | Unfinished => Unfinished
  end.
Proof. reflexivity. Qed.

Lemma render_field_plain (kw : gmap string string) (name acc out t : string) :
  plain name = true →
  render kw (Field acc) out (name +:+ String "}" t) =
  match get_field kw (acc +:+ name) with
  | Ret v => render kw Text (out +:+ v) t
  | Raise e => Raise e
  | Unfinished => Unfinished
  end.
Proof.
  revert acc. induction name as [|c name IH]; intros acc Hp.
  - by rewrite app_empty_l, app_empty_r.
  - simpl in Hp. apply andb_prop in Hp as [Hc Hp].
    rewrite app_cons.
    assert (render kw (Field acc) out (String c (name +:+ String "}" t)) =
            render kw (Field (acc +:+ String c "")) out (name +:+ String "}" t)) as ->.
    { unfold special in Hc. simpl.
      destruct (Ascii.eqb c "{"), (Ascii.eqb c "}"), (Ascii.eqb c "."),
        (Ascii.eqb c "["), (Ascii.eqb c "!"), (Ascii.eqb c ":"); try done. }
    rewrite IH by done. by rewrite app_assoc.
Qed.

(** A plain name in braces, met in text, is looked up. *)
Lemma render_placeholder (kw : gmap string string) (name out t : string) :
  plain name = true →
  render kw Text out (String "{" (name +:+ String "}" t)) =
  match get_field kw name with
  | Ret v => render kw Text (out +:+ v) t
  | Raise e => Raise e
  | Unfinished => Unfinished
  end.
Proof.
  intros Hp. transitivity (render kw (Field "") out (name +:+ String "}" t));
    [|by rewrite render_field_plain].
  destruct name as [|c name]; [reflexivity|].
  simpl in Hp. apply andb_prop in Hp as [Hc _].
  rewrite app_cons.
  unfold special in Hc.
  destruct (Ascii.eqb c "{") eqn:E; [done|].
  change (render kw Text out (String "{" (String c (name +:+ String "}" t))))
    with (if Ascii.eqb c "{" then render kw Text (out +:+ "{") (name +:+ String "}" t)
          else render kw (Field "") out (String c (name +:+ String "}" t))).
  by rewrite E.
Qed.

Lemma render_unfold (kw : gmap string string) (md : mode) (out s : string) :
  render kw md out s =
  match md, s with
  | Text, EmptyString => Ret out
  | Text, String c s' =>
      if Ascii.eqb c "{" then
        match s' with
        | EmptyString => Raise (ValueError "Single '{' encountered in format string")
        | String c' s'' =>
            if Ascii.eqb c' "{" then render kw Text (out +:+ "{") s''
            else render kw (Field "") out s'
        end
      else if Ascii.eqb c "}" then
        match s' with
        | EmptyString => Raise (ValueError "Single '}' encountered in format string")
        | String c' s'' =>
            if Ascii.eqb c' "}" then render kw Text (out +:+ "}") s''
            else Raise (ValueError "Single '}' encountered in format string")
        end
      else render kw Text (out +:+ String c "") s'
  | Field _, EmptyString => Raise (ValueError "expected '}' before end of string")
  | Field name, String c s' =>
      if Ascii.eqb c "}" then
        match get_field kw name with
        | Ret v => render kw Text (out +:+ v) s'
        | Raise e => Raise e
        | Unfinished => Unfinished
        end
      else if Ascii.eqb c "{" then Raise (ValueError "unexpected '{' in field name")
      else if Ascii.eqb c "." || Ascii.eqb c "[" || Ascii.eqb c "!" || Ascii.eqb c ":"
      then Unfinished
      else render kw (Field (name +:+ String c "")) out s'
  end.
Proof. by destruct md, s. Qed.

Ltac render_step :=
  rewrite ?app_cons; rewrite render_unfold; cbv beta iota;
  repeat match goal with
         | E : Ascii.eqb _ _ = _ |- _ => rewrite E
         | E : orb _ _ = _ |- _ => rewrite E
         end.

(** A template that renders can be continued: the scan goes on in
    text mode with what it has written. *)
Lemma render_app_fuel (kw : gmap string string) (n : nat) :
  ∀ s, (String.length s < n)%nat → ∀ md out out',
    render kw md out s = Ret out' →
    ∀ t, render kw md out (s +:+ t) = render kw Text out' t.
Proof.
  induction n as [|n IH]; intros s Hlen md out out' H t; [lia|].
  destruct md as [|name], s as [|c s]; rewrite render_unfold in H; simpl in Hlen.
  - by inversion H.
  - destruct (Ascii.eqb c "{") eqn:E1.
    + destruct s as [|c' s]; [done|]. simpl in Hlen.
      destruct (Ascii.eqb c' "{") eqn:E2.
      * render_step. apply IH; [lia|done].
      * render_step. rewrite <- app_cons. apply IH; [simpl; lia|done].
    + destruct (Ascii.eqb c "}") eqn:E2.
      * destruct s as [|c' s]; [done|]. simpl in Hlen.
        destruct (Ascii.eqb c' "}") eqn:E3; [|done].
        render_step. apply IH; [lia|done].
      * render_step. apply IH; [lia|done].
  - done.
  - destruct (Ascii.eqb c "}") eqn:E1.
    + render_step. destruct (get_field kw name); try done.
      apply IH; [lia|done].
    + destruct (Ascii.eqb c "{") eqn:E2; [done|].
      destruct (Ascii.eqb c "." || Ascii.eqb c "[" || Ascii.eqb c "!" || Ascii.eqb c ":")
        eqn:E3; [done|].
      render_step. apply IH; [lia|done].
Qed.

Lemma render_app (kw : gmap string string) (s t out out' : string) :
  render kw Text out s = Ret out' →
  render kw Text out (s +:+ t) = render kw Text out' t.
Proof.
  intros H. by apply (render_app_fuel kw (S (String.length s)) s (Nat.lt_succ_diag_r _) Text).
Qed.

(** A template that renders under some mapping either can be continued
    under another mapping, or names a key the other mapping lacks. *)
Lemma render_app_other_fuel (kw kw' : gmap string string) (n : nat) :
  ∀ s, (String.length s < n)%nat → ∀ md o1 o1',
    render kw' md o1 s = Ret o1' →
    ∀ o2, (∃ o2', ∀ t, render kw md o2 (s +:+ t) = render kw Text o2' t) ∨
          (∃ name, kw !! name = None ∧
                   ∀ t, render kw md o2 (s +:+ t) = Raise (KeyError name)).
Proof.
  induction n as [|n IH]; intros s Hlen md o1 o1' H o2; [lia|].
  destruct md as [|name], s as [|c s]; rewrite render_unfold in H; simpl in Hlen.
  - left. by exists o2.
  - destruct (Ascii.eqb c "{") eqn:E1.
    + destruct s as [|c' s]; [done|]. simpl in Hlen.
      destruct (Ascii.eqb c' "{") eqn:E2.
      * destruct (IH s ltac:(lia) _ _ _ H (o2 +:+ "{")) as [[o2' Ho]|(nm & Hn & Ho)];
          [left; exists o2'|right; exists nm; split; [done|]];
          intros t; render_step; apply Ho.
      * destruct (IH (String c' s) ltac:(simpl; lia) _ _ _ H o2)
          as [[o2' Ho]|(nm & Hn & Ho)];
          [left; exists o2'|right; exists nm; split; [done|]];
          intros t; specialize (Ho t); rewrite app_cons in Ho; render_step; apply Ho.
    + destruct (Ascii.eqb c "}") eqn:E2.
      * destruct s as [|c' s]; [done|]. simpl in Hlen.
        destruct (Ascii.eqb c' "}") eqn:E3; [|done].
        destruct (IH s ltac:(lia) _ _ _ H (o2 +:+ "}")) as [[o2' Ho]|(nm & Hn & Ho)];
          [left; exists o2'|right; exists nm; split; [done|]];
          intros t; render_step; apply Ho.
      * destruct (IH s ltac:(lia) _ _ _ H (o2 +:+ String c ""))
          as [[o2' Ho]|(nm & Hn & Ho)];
          [left; exists o2'|right; exists nm; split; [done|]];
          intros t; render_step; apply Ho.
  - done.
  - destruct (Ascii.eqb c "}") eqn:E1.
    + unfold get_field in *.
      destruct (all_digits name) eqn:Ed.
      { by destruct (PY_SSIZE_T_MAX <? digits_value 0 name). }
      destruct (kw' !! name) as [v'|]; [|done].
      destruct (kw !! name) as [v|] eqn:Ek.
      * destruct (IH s ltac:(lia) _ _ _ H (o2 +:+ v)) as [[o2' Ho]|(nm & Hn & Ho)];
          [left; exists o2'|right; exists nm; split; [done|]];
          intros t; render_step; unfold get_field; rewrite Ed, Ek; apply Ho.
      * right. exists name. split; [done|].
        intros t. render_step. unfold get_field. by rewrite Ed, Ek.
    + destruct (Ascii.eqb c "{") eqn:E2; [done|].
      destruct (Ascii.eqb c "." || Ascii.eqb c "[" || Ascii.eqb c "!" || Ascii.eqb c ":")
        eqn:E3; [done|].
      destruct (IH s ltac:(lia) _ _ _ H o2) as [[o2' Ho]|(nm & Hn & Ho)];
          [left; exists o2'|right; exists nm; split; [done|]];
          intros t; render_step; apply Ho.
Qed.

(** What the scan has already written stays in front. *)
Lemma render_out_fuel (kw : gmap string string) (o : string) (n : nat) :
  ∀ s, (String.length s < n)%nat → ∀ md out,
    render kw md (o +:+ out) s = map_result (String.append o) (render kw md out s).
Proof.
  induction n as [|n IH]; intros s Hlen md out; [lia|].
  destruct md as [|name], s as [|c s]; rewrite (render_unfold kw _ out);
    rewrite render_unfold; simpl in Hlen; try done.
  - destruct (Ascii.eqb c "{") eqn:E1.
    + destruct s as [|c' s]; [done|]. simpl in Hlen.
      destruct (Ascii.eqb c' "{") eqn:E2.
      * rewrite app_assoc. apply IH. lia.
      * apply IH. simpl. lia.
    + destruct (Ascii.eqb c "}") eqn:E2.
      * destruct s as [|c' s]; [done|]. simpl in Hlen.
        destruct (Ascii.eqb c' "}") eqn:E3; [|done].
        rewrite app_assoc. apply IH. lia.
      * rewrite app_assoc. apply IH. lia.
  - destruct (Ascii.eqb c "}") eqn:E1.
    + destruct (get_field kw name); try done.
      rewrite app_assoc. apply IH. lia.
    + destruct (Ascii.eqb c "{") eqn:E2; [done|].
      destruct (Ascii.eqb c "." || Ascii.eqb c "[" || Ascii.eqb c "!" || Ascii.eqb c ":")
        eqn:E3; [done|].
      apply IH. lia.
Qed.

Lemma render_out (kw : gmap string string) (o s : string) :
  render kw Text o s = map_result (String.append o) (format s kw).
Proof.
  unfold format. rewrite <- (app_empty_r o) at 1.
  apply (render_out_fuel kw o (S (String.length s))). lia.
Qed.

Lemma all_digits_const (X : string) : all_digits ("const_" +:+ X) = false.
Proof. reflexivity. Qed.

Lemma plain_const (X : string) : plain ("const_" +:+ X) = plain X.
Proof. reflexivity. Qed.

Section ResolverClaims.
Variable CONSTANTS : gmap string string.

(** C6.  A placeholder [{const_X}] whose [X] is a process constant is
    replaced by the constant's value as it is, the text around it being
    rendered on its own; and a template that refers to a name the merged
    mapping lacks fails with the lookup error ([KeyError]) on a missing
    name, on that very name when the text before it renders: nothing is
    ever put in its place. *)
Theorem C6_resolution (c : Command) (vars : gmap string string) (pre post : string) :
  (∀ X v pre' post',
     value c = pre +:+ "{const_" +:+ X +:+ "}" +:+ post →
     plain X = true →
     CONSTANTS !! X = Some v →
     format pre (merged_variables CONSTANTS vars) = Ret pre' →
     format post (merged_variables CONSTANTS vars) = Ret post' →
     get_resolved_value CONSTANTS c vars = Ret (pre' +:+ v +:+ post')) ∧
  (∀ name,
     value c = pre +:+ "{" +:+ name +:+ "}" +:+ post →
     plain name = true → all_digits name = false →
     merged_variables CONSTANTS vars !! name = None →
     (∀ pre', format pre (merged_variables CONSTANTS vars) = Ret pre' →
        get_resolved_value CONSTANTS c vars = Raise (KeyError name)) ∧
     (∀ kw' pre', format pre kw' = Ret pre' →
        ∃ missing, merged_variables CONSTANTS vars !! missing = None ∧
                   get_resolved_value CONSTANTS c vars = Raise (KeyError missing))).
Proof.
  unfold get_resolved_value. split.
  - intros X v pre' post' -> HX Hc Hpre Hpost.
    unfold format in *.
    rewrite (render_app _ _ _ _ _ Hpre).
    change ("{const_" +:+ X +:+ "}" +:+ post)
      with (String "{" (("const_" +:+ X) +:+ String "}" post)).
    rewrite render_placeholder by done.
    unfold get_field. rewrite all_digits_const.
    rewrite (merged_variables_const CONSTANTS vars X v Hc).
    rewrite render_out. unfold format. rewrite Hpost. simpl.
    by rewrite app_assoc.
  - intros name -> Hp Hd Hn.
    assert (∀ o, render (merged_variables CONSTANTS vars) Text o
                   ("{" +:+ name +:+ "}" +:+ post) = Raise (KeyError name)) as Hfield.
    { intros o.
      change ("{" +:+ name +:+ "}" +:+ post) with (String "{" (name +:+ String "}" post)).
      rewrite render_placeholder by done. unfold get_field. by rewrite Hd, Hn. }
    split.
    + intros pre' Hpre. unfold format in *.
      by rewrite (render_app _ _ _ _ _ Hpre).
    + intros kw' pre' Hpre. unfold format in *.
      destruct (render_app_other_fuel (merged_variables CONSTANTS vars) kw'
                  (S (String.length pre)) pre (Nat.lt_succ_diag_r _) Text "" pre' Hpre "")
        as [[o2 Ho]|(nm & Hnm & Ho)].
      * exists name. split; [done|]. by rewrite Ho.
      * exists nm. split; [done|]. by rewrite Ho.
Qed.

(** C7, as amended.  A user variable keeps its value in the merged
    mapping unless its name is [const_] followed by the name of a process
    constant; such a name is bound to the constant's value, whatever the
    variables hold; and resolving leaves the run's variables as they
    were. *)
Theorem C7_merged_variables (vars : gmap string string) :
  (∀ n v, vars !! n = Some v →
          (∀ k, n = "const_" +:+ k → CONSTANTS !! k = None) →
          merged_variables CONSTANTS vars !! n = Some v) ∧
  (∀ k cv, CONSTANTS !! k = Some cv →
           merged_variables CONSTANTS vars !! ("const_" +:+ k) = Some cv) ∧
  (∀ c w, snd (resolved CONSTANTS c w) = w ∧
          fst (resolved CONSTANTS c (snd (resolved CONSTANTS c w))) =
          fst (resolved CONSTANTS c w)).
Proof.
  split_and!.
  - intros n v Hv Hk. by rewrite merged_variables_other.
  - intros k cv Hk. by apply merged_variables_const.
  - done.
Qed.

End ResolverClaims.

(** C7 as it is stated fails: a user variable named like a constant is
    bound to the constant's value in the merged mapping, not to its
    own. *)
Lemma C7_counterexample :
  ({["const_A" := "u"]} : gmap string string) !! "const_A" = Some "u" ∧
  merged_variables {["A" := "c"]} {["const_A" := "u"]} !! "const_A" = Some "c" ∧
  merged_variables {["A" := "c"]} {["const_A" := "u"]} !! "const_A" ≠ Some "u".
Proof. split_and!; [reflexivity|vm_compute; reflexivity|vm_compute; discriminate]. Qed.

(** C8.  The step is built from the first pair of its entry alone: the
    pairs after it change none of the step's attributes, which are the
    key as written, its three parts, and the value; and a value that is a
    mapping with exactly one key gives the template made of that key in
    braces, a text value being taken as it is. *)
Theorem C8_init_first_pair (k : string) (v : yaml) (rest : list (string * yaml))
    (idx : Z) (sys : gmap string string) (imps : list string) :
  map_result (option_map step_attributes) (Command_init ((k, v) :: rest) idx sys imps) =
  map_result (option_map step_attributes) (Command_init [(k, v)] idx sys imps) ∧
  (∀ c, Command_init ((k, v) :: rest) idx sys imps = Ret (Some c) →
        orig_key c = k ∧
        (assignment c, assignment_var c, key c) = get_assignment_var k ∧
        pipeline_cmd c = (k, v) :: rest ∧ index c = idx ∧ systems c = sys ∧
        imports c = imps) ∧
  (∀ k1, v = YMap [k1] →
         ∃ c, Command_init ((k, v) :: rest) idx sys imps = Ret (Some c) ∧
              value c = "{" +:+ k1 +:+ "}") ∧
  (∀ s, v = YStr s →
        ∃ c, Command_init ((k, v) :: rest) idx sys imps = Ret (Some c) ∧ value c = s).
Proof.
  unfold Command_init.
  destruct (get_assignment_var k) as [[a av] nk] eqn:E.
  split_and!.
  - by destruct v as [s|[|k1 ks]].
  - intros c Hc. destruct v as [s|[|k1 ks]]; inversion Hc; by subst.
  - intros k1 ->. eauto.
  - intros s ->. eauto.
Qed.

(** ** The remote executor under an interrupt *)


Lemma add_events_app (w : World) (a b : list event) :
  add_events (add_events w a) b = add_events w (a ++ b).
Proof. unfold add_events. simpl. by rewrite <- List.app_assoc. Qed.

Lemma add_events_nil (w : World) : add_events w [] = w.
Proof. unfold add_events. rewrite List.app_nil_r. by destruct w. Qed.

(** *** One step of a computation *)

Lemma bind_ret {A B} (a : A) (k : A → M B) (w : World) : bind (ret a) k w = k a w.
Proof. reflexivity. Qed.

Lemma bind_lift_Ret {A B} (a : A) (k : A → M B) (w : World) :
  bind (lift (Ret a)) k w = k a w.
Proof. reflexivity. Qed.

Lemma bind_assoc {A B C} (m : M A) (f : A → M B) (g : B → M C) (w : World) :
  bind (bind m f) g w = bind m (λ x, bind (f x) g) w.
Proof. unfold bind. by destruct (m w) as [[a|e|] w']. Qed.

Lemma bind_emit {B} (e : event) (k : unit → M B) (w : World) :
  bind (emit e) k w = k tt (add_events w [e]).
Proof. reflexivity. Qed.

Lemma bind_log {B} (lv : level) (msg : string) (k : unit → M B) (w : World) :
  bind (log lv msg) k w = k tt (add_events w [Log lv msg]).
Proof. reflexivity. Qed.

Lemma bind_input {B} (text : string) (k : string → M B) (w : World) :
  bind (input text) k w = k (typed w 0%nat) (read_line (add_events w [Prompt text])).
Proof. reflexivity. Qed.

Lemma bind_next_listing {B} (k : Z * string → M B) (w : World) :
  bind next_listing k w = k (listings w 0%nat) (listed w).
Proof. reflexivity. Qed.

Lemma bind_next_proc {B} (k : proc_result → M B) (w : World) :
  bind next_proc k w = k (procs w 0%nat) (launched w).
Proof. reflexivity. Qed.

Lemma bind_next_removal {B} (k : Z → M B) (w : World) :
  bind next_removal k w = k (removals w 0%nat) (removed w).
Proof. reflexivity. Qed.

Lemma bind_eq {A B} (m : M A) (k : A → M B) (w w' : World) (a : A) :
  m w = (Ret a, w') → bind m k w = k a w'.
Proof. intros H. unfold bind. by rewrite H. Qed.

Lemma bind_raise {A B} (e : exn) (k : A → M B) (w : World) :
  bind (raise e) k w = (Raise e, w).
Proof. reflexivity. Qed.

Lemma for_each_kills (hostname ssh_cmd signal : string) (ps_pids : list string) (w : World) :
  for_each ps_pids (λ pid,
    log INFO ("Kill " +:+ pid +:+ " on " +:+ hostname) ;;
    emit (Kill (ssh_cmd +:+ " kill -" +:+ signal +:+ " " +:+ pid))) w =
  (Ret tt, add_events w (kill_events hostname ssh_cmd signal ps_pids)).
Proof.
  revert w. induction ps_pids as [|pid rest IH]; intros w.
  - by rewrite add_events_nil.
  - cbn [for_each]. rewrite bind_assoc, bind_log, bind_emit.
    rewrite IH, !add_events_app. reflexivity.
Qed.

Lemma bind_kills {B} (hostname ssh_cmd signal : string) (ps_pids : list string)
    (k : unit → M B) (w : World) :
  bind (for_each ps_pids (λ pid,
          log INFO ("Kill " +:+ pid +:+ " on " +:+ hostname) ;;
          emit (Kill (ssh_cmd +:+ " kill -" +:+ signal +:+ " " +:+ pid)))) k w =
  k tt (add_events w (kill_events hostname ssh_cmd signal ps_pids)).
Proof. unfold bind at 1. by rewrite for_each_kills. Qed.

Lemma Forall_loop_kills (hostname ssh_cmd signal : string) (ps_pids : list string) :
  forallb is_loop_event (kill_events hostname ssh_cmd signal ps_pids) = true.
Proof. induction ps_pids as [|pid rest IH]; [done|]. simpl. by rewrite IH. Qed.

Ltac world_simpl :=
  cbn [vars typed procs listings removals evals trace
       add_events read_line listed launched removed].

Section Remote.
Variable CONSTANTS : gmap string string.

Lemma bind_resolved {B} (c : Command) (v : string) (k : string → M B) (w : World) :
  get_resolved_value CONSTANTS c (vars w) = Ret v →
  bind (resolved CONSTANTS c) k w = k v w.
Proof. intros H. unfold bind, resolved. by rewrite H. Qed.

Lemma bind_get_remote_pids {B} (hostname cmd : string) (k : list string → M B)
    (w : World) :
  fst (listings w 0%nat) = 0 →
  ∃ q, bind (get_remote_pids hostname cmd) k w =
       k (Str.split_ws (snd (listings w 0%nat))) (listed (add_events w [PidQuery q])).
Proof.
  intros H. eexists. unfold get_remote_pids.
  rewrite bind_assoc, bind_emit, bind_assoc, bind_next_listing.
  world_simpl. rewrite H. reflexivity.
Qed.

Lemma escalate_round (fuel : nat) (c : Command) (hostname ssh_cmd : string)
    (ps_pids : list string) :
  ps_pids ≠ [] →
  escalate CONSTANTS (S fuel) c hostname ssh_cmd ps_pids =
  (log NOTICE ("Remote command seems still to be running! Found PIDs: "
               +:+ Str.join "," ps_pids) ;;
   answer <- input signal_prompt ;;
   if String.eqb answer "p" then ret tt
   else
     for_each ps_pids (λ pid,
       log INFO ("Kill " +:+ pid +:+ " on " +:+ hostname) ;;
       emit (Kill (ssh_cmd +:+ " kill -" +:+
                   (if String.eqb answer "t" then "TERM"
                    else if String.eqb answer "k" then "KILL" else "INT")
                   +:+ " " +:+ pid))) ;;
     v <- resolved CONSTANTS c ;;
     ps_pids' <- get_remote_pids hostname v ;;
     escalate CONSTANTS fuel c hostname ssh_cmd ps_pids').
Proof. by destruct ps_pids. Qed.

Lemma escalate_nil (fuel : nat) (c : Command) (hostname ssh_cmd : string) (w : World) :
  escalate CONSTANTS fuel c hostname ssh_cmd [] w = (Ret tt, w).
Proof. by destruct fuel. Qed.

(** The loop ends, having touched nothing but the terminal, the
    listings and the trace, when some round finds no process or is
    answered with [p] and the listings up to it succeed. *)
Lemma escalate_ends (c : Command) (hostname ssh_cmd v : string) (j : nat) :
  ∀ (fuel : nat) (ps_pids : list string) (w : World),
    (j < fuel)%nat →
    get_resolved_value CONSTANTS c (vars w) = Ret v →
    (∀ i, (i < j)%nat → fst (listings w i) = 0) →
    (round_pids ps_pids w j = [] ∨ typed w j = "p") →
    ∃ w' evs,
      escalate CONSTANTS fuel c hostname ssh_cmd ps_pids w = (Ret tt, w') ∧
      vars w' = vars w ∧ procs w' = procs w ∧ removals w' = removals w ∧
      evals w' = evals w ∧ trace w' = trace w ++ evs ∧
      forallb is_loop_event evs = true.
Proof.
  induction j as [|j IH]; intros fuel ps_pids w Hfuel Hv Hok Hend.
  - destruct (decide (ps_pids = [])) as [->|Hne].
    + exists w, []. rewrite escalate_nil, List.app_nil_r. done.
    + destruct Hend as [Hend|Hend]; [done|].
      destruct fuel as [|fuel]; [lia|].
      rewrite escalate_round by done.
      rewrite bind_log, bind_input. world_simpl. rewrite Hend.
      eexists _, _. split; [reflexivity|]. world_simpl.
      split_and!; try done; [by rewrite <- List.app_assoc|done].
  - destruct (decide (ps_pids = [])) as [->|Hne].
    + exists w, []. rewrite escalate_nil, List.app_nil_r. done.
    + destruct fuel as [|fuel]; [lia|].
      rewrite escalate_round by done.
      rewrite bind_log, bind_input. world_simpl.
      destruct (String.eqb (typed w 0%nat) "p") eqn:Ep.
      * eexists _, _. split; [reflexivity|]. world_simpl.
        split_and!; try done; [by rewrite <- List.app_assoc|done].
      * rewrite bind_kills. rewrite (bind_resolved _ v) by done.
        match goal with
        | |- context [bind (get_remote_pids ?h ?cmd) ?k ?w1] =>
            destruct (bind_get_remote_pids h cmd k w1) as [q ->]
        end.
        { world_simpl. apply Hok. lia. }
        world_simpl.
        match goal with
        | |- context [escalate _ _ _ _ _ ?ps' ?w2] =>
            destruct (IH fuel ps' w2)
              as (w' & evs & He & Hvars & Hprocs & Hrem & Hev & Htr & Hall)
        end.
        -- lia.
        -- done.
        -- intros i Hi. world_simpl. unfold tl. apply Hok. lia.
        -- world_simpl. unfold tl.
           destruct Hend as [Hend|Hend]; [left|by right].
           destruct j as [|j]; cbn [round_pids] in *; world_simpl; exact Hend.
        -- rewrite He.
           exists w', ([Log NOTICE ("Remote command seems still to be running! Found PIDs: "
                                    +:+ Str.join "," ps_pids);
                        Prompt signal_prompt] ++
                       kill_events hostname ssh_cmd
                         (if String.eqb (typed w 0%nat) "t" then "TERM"
                          else if String.eqb (typed w 0%nat) "k" then "KILL" else "INT")
                         ps_pids ++ [PidQuery q] ++ evs).
           split; [reflexivity|].
           rewrite Hvars, Hprocs, Hrem, Hev, Htr. world_simpl.
           split_and!; try done.
           ++ rewrite <- !List.app_assoc. reflexivity.
           ++ change (forallb is_loop_event
                        (kill_events hostname ssh_cmd
                           (if String.eqb (typed w 0%nat) "t" then "TERM"
                            else if String.eqb (typed w 0%nat) "k" then "KILL" else "INT")
                           ps_pids ++ PidQuery q :: evs) = true).
              rewrite forallb_app, Forall_loop_kills. exact Hall.
Qed.

Lemma run_local_command_interrupted (c : Command) (cmd : string) (w : World) :
  procs w 0%nat = Interrupted →
  _run_local_command c cmd w =
  (Raise KeyboardInterrupt,
   launched (add_events w [Log DEBUG ("Executing: " +:+ cmd); Shell cmd (assignment c)])).
Proof.
  intros H. unfold _run_local_command.
  rewrite bind_log, bind_emit, bind_next_proc. world_simpl. rewrite H.
  by rewrite add_events_app.
Qed.

Lemma loop_events_no_cleanup (evs : list event) :
  forallb is_loop_event evs = true → filter is_cleanup evs = [].
Proof.
  induction evs as [|e evs IH]; [done|]. simpl.
  intros [He Hevs]%andb_prop. rewrite filter_cons.
  destruct e; try done; simpl; by apply IH.
Qed.

(** C1, as amended.  A step with imports whose remote command is
    interrupted while the executor waits for it: provided the process
    listings exit with status 0 and some round of the signal loop finds no
    process or is answered with [p], then whatever the operator answers
    in the rounds before and whatever the removal exits with, the executor
    returns 130, has queried the remote process ids at least once, and
    after that has launched the removal of the staging directory exactly
    once, followed by messages only. *)
Theorem C1_remote_interrupt (fuel : nat) (c : Command) (w : World)
    (hostname v : string) (j : nat) :
  imports c ≠ [] →
  get_system c = Ret hostname →
  get_resolved_value CONSTANTS c (vars w) = Ret v →
  procs w 0%nat = Interrupted →
  (j < fuel)%nat →
  (∀ i, (i ≤ j)%nat → fst (listings w i) = 0) →
  (Str.split_ws (snd (listings w j)) = [] ∨ typed w j = "p") →
  ∃ w' before after,
    _remote_action CONSTANTS fuel c w = (Ret 130, w') ∧
    trace w' = trace w ++ before ++
               [Cleanup (ssh_cmd_for hostname +:+ " rm -r " +:+ REMOTE_TMP_DIR)] ++ after ∧
    filter is_cleanup before = [] ∧
    (1 ≤ length (filter is_pid_query before))%nat ∧
    forallb is_log after = true ∧
    length (filter is_cleanup
              (before ++ [Cleanup (ssh_cmd_for hostname +:+ " rm -r " +:+ REMOTE_TMP_DIR)]
               ++ after)) = 1%nat.
Proof.
  intros Himp Hsys Hv Hint Hfuel Hok Hend.
  unfold _remote_action. rewrite Hsys, bind_lift_Ret.
  rewrite (bind_resolved _ v) by done.
  destruct (imports c) as [|imp imps] eqn:Hi; [done|].
  rewrite bind_assoc. unfold _build_command at 1. rewrite Hi.
  rewrite bind_assoc, (bind_resolved _ v) by done.
  rewrite bind_ret, bind_ret. cbn [fst snd].
  unfold bind at 1. unfold on_interrupt at 1.
  rewrite run_local_command_interrupted by done.
  rewrite bind_log. rewrite (bind_resolved _ v) by done.
  match goal with
  | |- context [bind (get_remote_pids ?h ?cmd) ?k ?w1] =>
      destruct (bind_get_remote_pids h cmd k w1) as [q ->]
  end.
  { world_simpl. apply Hok. lia. }
  world_simpl.
  match goal with
  | |- context [bind (escalate _ ?f ?c ?h ?ssh ?ps) ?k ?w3] =>
      destruct (escalate_ends c h ssh v j f ps w3)
        as (w' & evs & He & Hvars & Hprocs & Hrem & Hev & Htr & Hall);
      [lia|done| | |]
  end.
  - intros i H. world_simpl. unfold tl. apply Hok. lia.
  - world_simpl. destruct Hend as [Hend|Hend]; [left|by right].
    destruct j as [|j]; cbn [round_pids]; world_simpl; exact Hend.
  - rewrite (bind_eq _ _ _ _ _ He).
    rewrite bind_log. unfold ret at 1. cbv beta iota.
    rewrite bind_assoc, bind_log, bind_assoc, bind_emit, bind_assoc, bind_next_removal.
    world_simpl. rewrite Hrem. world_simpl.
    set (before := [Log DEBUG ("Executing: " +:+
                      ("tar -C " +:+ IMPORT_PATH +:+ " -cf - " +:+
                       Str.join " " (imp :: imps) +:+ " | ") +:+
                      ssh_cmd_for hostname +:+
                      Shlex.quote ("bash -c " +:+ Shlex.quote
                        ("mkdir " +:+ REMOTE_TMP_DIR +:+ "; tar -C " +:+
                         REMOTE_TMP_DIR +:+ " -xf -; " +:+
                         (". " +:+ REMOTE_TMP_DIR +:+ "/" +:+
                          Str.join ("; . " +:+ REMOTE_TMP_DIR +:+ "/") (imp :: imps)
                          +:+ "; " +:+ v))));
                    Shell (("tar -C " +:+ IMPORT_PATH +:+ " -cf - " +:+
                       Str.join " " (imp :: imps) +:+ " | ") +:+
                      ssh_cmd_for hostname +:+
                      Shlex.quote ("bash -c " +:+ Shlex.quote
                        ("mkdir " +:+ REMOTE_TMP_DIR +:+ "; tar -C " +:+
                         REMOTE_TMP_DIR +:+ " -xf -; " +:+
                         (". " +:+ REMOTE_TMP_DIR +:+ "/" +:+
                          Str.join ("; . " +:+ REMOTE_TMP_DIR +:+ "/") (imp :: imps)
                          +:+ "; " +:+ v)))) (assignment c);
                    Log INFO interrupted_msg; PidQuery q] ++ evs ++
                   [Log INFO ("Keystroke interrupt handled." +:+ String Str.LF "");
                    Log DEBUG ("Executing: " +:+ ssh_cmd_for hostname +:+ " rm -r "
                               +:+ REMOTE_TMP_DIR)]).
    assert (filter is_cleanup before = []) as Hnc.
    { unfold before. rewrite !filter_app, (loop_events_no_cleanup evs Hall). done. }
    assert (1 ≤ length (filter is_pid_query before))%nat as Hpq.
    { unfold before. rewrite !filter_app, !length_app.
      change (filter is_pid_query [Log DEBUG _; Shell _ _; Log INFO _; PidQuery q])
        with [PidQuery q]. simpl. lia. }
    destruct (removals w 0%nat =? 0) eqn:Er; cbv beta iota.
    + eexists _, before, [].
      split; [reflexivity|]. world_simpl. rewrite Htr. world_simpl.
      split_and!; try done.
      * unfold before. rewrite <- !List.app_assoc. reflexivity.
      * rewrite !filter_app, Hnc. done.
    + eexists _, before, [Log WARNING ("Failed to remove " +:+ REMOTE_TMP_DIR +:+
                                        ", exitcode: " +:+ pretty (removals w 0%nat))].
      split; [reflexivity|]. world_simpl. rewrite Htr. world_simpl.
      split_and!; try done.
      * unfold before. rewrite <- !List.app_assoc. reflexivity.
      * rewrite !filter_app, Hnc. done.
Qed.
End Remote.

(** ** The controller *)


Section Controller.
Variable CONSTANTS : gmap string string.

Lemma execute_unfold (fuel : nat) (c : Command) (interactive force : bool) :
  execute CONSTANTS (S fuel) c interactive force =
  (r <- step_body CONSTANTS fuel c interactive ;;
   match r with
   | None => ret tt
   | Some return_code =>
       if return_code =? 0 then ret tt
       else
         log ERROR (failed_msg c return_code) ;;
         if force then ret tt
         else
           err_answer <- input failure_prompt ;;
           if String.eqb err_answer "r" then execute CONSTANTS fuel c interactive false
           else if String.eqb err_answer "a"
           then raise (AbortException (pretty return_code))
           else ret tt
   end).
Proof. reflexivity. Qed.

(** C2.  A step body that ends with a return code other than 0, the
    force flag unset: on [r] the whole of [execute] runs again in the
    world the answer leaves (so the template is resolved again and, in
    interactive mode, the gate asked again); on [a] [AbortException] is
    raised with the return code as text; on any other answer the step
    ends without an exception.  In particular, when the body returns 2,
    the operator answers [r], the body run again returns 2 and the
    operator answers [p], the step ends without an exception right after
    the second failure gate: the body has run twice. *)
Theorem C2_failure_gate (fuel : nat) (c : Command) (interactive : bool)
    (w wd : World) (return_code : Z) :
  step_body CONSTANTS fuel c interactive w = (Ret (Some return_code), wd) →
  return_code ≠ 0 →
  (typed wd 0%nat = "r" →
     execute CONSTANTS (S fuel) c interactive false w =
     execute CONSTANTS fuel c interactive false (past_failure_gate c return_code wd)) ∧
  (typed wd 0%nat = "a" →
     execute CONSTANTS (S fuel) c interactive false w =
     (Raise (AbortException (pretty return_code)), past_failure_gate c return_code wd)) ∧
  (typed wd 0%nat ≠ "r" → typed wd 0%nat ≠ "a" →
     execute CONSTANTS (S fuel) c interactive false w =
     (Ret tt, past_failure_gate c return_code wd)) ∧
  (∀ fuel' t v',
     fuel = S fuel' → typed wd 0%nat = "r" → interactive = true →
     get_type c = Ret t →
     get_resolved_value CONSTANTS c (vars wd) = Ret v' →
     typed wd 1%nat = "s" →
     execute CONSTANTS (S fuel) c interactive false w =
     (Ret tt, past_gate c v' (past_failure_gate c return_code wd))) ∧
  (∀ fuel' wd2,
     fuel = S fuel' → return_code = 2 → typed wd 0%nat = "r" →
     step_body CONSTANTS fuel' c interactive (past_failure_gate c 2 wd) =
       (Ret (Some 2), wd2) →
     typed wd2 0%nat = "p" →
     execute CONSTANTS (S fuel) c interactive false w =
     (Ret tt, past_failure_gate c 2 wd2)).
Proof.
  intros Hbody Hrc.
  assert ((return_code =? 0) = false) as Hz by (by apply Z.eqb_neq).
  assert (∀ answer, typed wd 0%nat = answer →
     execute CONSTANTS (S fuel) c interactive false w =
     (if String.eqb answer "r" then execute CONSTANTS fuel c interactive false
      else if String.eqb answer "a" then raise (AbortException (pretty return_code))
      else ret tt) (past_failure_gate c return_code wd)) as Hgate.
  { intros answer Ha. rewrite execute_unfold, (bind_eq _ _ _ _ _ Hbody).
    cbv beta iota. rewrite Hz, bind_log, bind_input. world_simpl. rewrite Ha.
    unfold past_failure_gate. by rewrite add_events_app. }
  split_and!.
  - intros Ha. by rewrite (Hgate _ Ha).
  - intros Ha. by rewrite (Hgate _ Ha).
  - intros Hr Habort. rewrite (Hgate _ eq_refl).
    apply String.eqb_neq in Hr, Habort. by rewrite Hr, Habort.
  - intros fuel' t v' -> Ha -> Ht Hv Hs.
    rewrite (Hgate _ Ha), String.eqb_refl.
    rewrite execute_unfold. unfold step_body.
    rewrite bind_assoc, (bind_resolved _ _ v') by done.
    rewrite bind_assoc, bind_log, bind_assoc, Ht, bind_lift_Ret.
    rewrite orb_true_r, bind_assoc, bind_input.
    unfold past_failure_gate at 1. world_simpl. unfold tl at 1. rewrite Hs.
    rewrite String.eqb_refl, bind_ret. unfold past_gate.
    by rewrite add_events_app.
  - intros fuel' wd2 -> -> Ha Hbody2 Hp.
    rewrite (Hgate _ Ha), String.eqb_refl.
    rewrite execute_unfold, (bind_eq _ _ _ _ _ Hbody2).
    change (2 =? 0) with false. cbv beta iota.
    rewrite bind_log, bind_input. world_simpl. rewrite Hp.
    unfold past_failure_gate. by rewrite add_events_app.
Qed.

(** C3.  A step body that ends with a return code other than 0, the
    force flag set: the failure is logged and the step ends without an
    exception; no prompt follows the body and no answer is read. *)
Theorem C3_force_absorbs (fuel : nat) (c : Command) (interactive : bool)
    (w wd : World) (return_code : Z) :
  step_body CONSTANTS fuel c interactive w = (Ret (Some return_code), wd) →
  return_code ≠ 0 →
  execute CONSTANTS (S fuel) c interactive true w =
    (Ret tt, add_events wd [Log ERROR (failed_msg c return_code)]) ∧
  typed (snd (execute CONSTANTS (S fuel) c interactive true w)) = typed wd ∧
  trace (snd (execute CONSTANTS (S fuel) c interactive true w)) =
    trace wd ++ [Log ERROR (failed_msg c return_code)].
Proof.
  intros Hbody Hrc.
  assert ((return_code =? 0) = false) as Hz by (by apply Z.eqb_neq).
  assert (execute CONSTANTS (S fuel) c interactive true w =
          (Ret tt, add_events wd [Log ERROR (failed_msg c return_code)])) as H.
  { rewrite execute_unfold, (bind_eq _ _ _ _ _ Hbody). cbv beta iota.
    by rewrite Hz, bind_log. }
  by rewrite H.
Qed.


Lemma dispatch_manual (fuel : nat) (c : Command) (w : World) :
  get_type c = Ret "manual" → dispatch CONSTANTS fuel c w = (Ret 0, w).
Proof. intros Ht. unfold dispatch. rewrite Ht. reflexivity. Qed.

(** C9.  At the manual gate, which is entered for a manual step and
    for every step in interactive mode: on [s] the step ends without an
    exception and nothing has been launched or evaluated (the notice and
    the prompt are the only events, the variables and the answers of the
    surroundings are untouched); on [a] [AbortException] is raised with
    the text [1]; and a manual step that goes on dispatches nothing, its
    return code is 0, and it ends. *)
Theorem C9_manual_gate (fuel : nat) (c : Command) (interactive force : bool)
    (w : World) (v t : string) :
  get_resolved_value CONSTANTS c (vars w) = Ret v →
  get_type c = Ret t →
  t = "manual" ∨ interactive = true →
  (typed w 0%nat = "s" →
     execute CONSTANTS (S fuel) c interactive force w = (Ret tt, past_gate c v w) ∧
     step_body CONSTANTS fuel c interactive w = (Ret None, past_gate c v w)) ∧
  (typed w 0%nat = "a" →
     execute CONSTANTS (S fuel) c interactive force w =
     (Raise (AbortException "1"), past_gate c v w)) ∧
  (t = "manual" → typed w 0%nat ≠ "s" → typed w 0%nat ≠ "a" →
     dispatch CONSTANTS fuel c (past_gate c v w) = (Ret 0, past_gate c v w) ∧
     step_body CONSTANTS fuel c interactive w = (Ret (Some 0), past_gate c v w) ∧
     execute CONSTANTS (S fuel) c interactive force w = (Ret tt, past_gate c v w)) ∧
  (trace (past_gate c v w) = trace w ++ [Log NOTICE (notice_msg c v); Prompt gate_prompt] ∧
   filter is_dispatch_event [Log NOTICE (notice_msg c v); Prompt gate_prompt] = [] ∧
   vars (past_gate c v w) = vars w ∧ procs (past_gate c v w) = procs w ∧
   evals (past_gate c v w) = evals w ∧ listings (past_gate c v w) = listings w ∧
   removals (past_gate c v w) = removals w).
Proof.
  intros Hv Ht Hgate.
  assert (String.eqb t "manual" || interactive = true) as Hcond.
  { destruct Hgate as [->| ->]; [done|by rewrite orb_true_r]. }
  assert (step_body CONSTANTS fuel c interactive w =
          (if String.eqb (typed w 0%nat) "s" then ret None
           else if String.eqb (typed w 0%nat) "a" then raise (AbortException (pretty 1))
           else (return_code <- dispatch CONSTANTS fuel c ;; ret (Some return_code)))
            (past_gate c v w)) as Hbody.
  { unfold step_body. rewrite (bind_resolved _ _ v) by done.
    rewrite bind_log, Ht, bind_lift_Ret, Hcond, bind_input. world_simpl.
    unfold past_gate. by rewrite add_events_app. }
  split_and!.
  - intros Hs. rewrite execute_unfold. unfold bind at 1.
    rewrite Hbody, Hs. done.
  - intros Ha. rewrite execute_unfold. unfold bind at 1.
    rewrite Hbody, Ha. done.
  - intros -> Hs Ha.
    pose proof (dispatch_manual fuel c (past_gate c v w) Ht) as Hd.
    apply String.eqb_neq in Hs, Ha.
    rewrite Hs, Ha in Hbody. rewrite (bind_eq _ _ _ _ _ Hd) in Hbody.
    split_and!; [done|done|].
    rewrite execute_unfold. rewrite (bind_eq _ _ _ _ _ Hbody). done.
  - done.
  - done.
  - done.
  - done.
  - done.
  - done.
  - done.
Qed.

End Controller.

(** ** The theorems at sample inputs *)


Import Sample.

Lemma C5_witness :
  get_system remote_step = Ret "10.0.0.1" ∧ get_system lost_step = Raise (KeyError "db").
Proof.
  split.
  - refine (proj1 (C5_get_system_remote remote_step "web1" _) "10.0.0.1" _);
      vm_compute; reflexivity.
  - refine (proj2 (C5_get_system_remote lost_step "db" _) _); vm_compute; reflexivity.
Defined.

Lemma C10_witness :
  get_system (mkCommand (pipeline_cmd local_step) (index local_step) ∅
                (imports local_step) (orig_key local_step) (assignment local_step)
                (assignment_var local_step) (key local_step) (value local_step))
  = Ret "localhost".
Proof.
  apply (C10_get_system_localhost local_step "local"); [reflexivity|discriminate].
Defined.

Lemma C6_witness :
  get_resolved_value constants home_step {["dir" := "x"]} = Ret "cd /srv && ls x" ∧
  get_resolved_value constants unbound_step {["dir" := "x"]} = Raise (KeyError "nope").
Proof.
  split.
  - apply (proj1 (C6_resolution constants home_step {["dir" := "x"]} "cd " " && ls {dir}")
             "HOME" "/srv" "cd " " && ls x"); vm_compute; reflexivity.
  - refine (proj1 (proj2 (C6_resolution constants unbound_step {["dir" := "x"]} "echo " "")
                     "nope" _ _ _ _) "echo " _); vm_compute; reflexivity.
Defined.

Lemma C7_witness :
  merged_variables constants {["dir" := "x"]} !! "dir" = Some "x".
Proof.
  refine (proj1 (C7_merged_variables constants {["dir" := "x"]}) "dir" "x" _ _).
  - vm_compute; reflexivity.
  - intros k Hk. discriminate Hk.
Defined.

Lemma C1_witness :
  ∃ w' before after,
    _remote_action constants 2 remote_step (interrupted_world ["k"] ["4242"]) = (Ret 130, w') ∧
    trace w' = trace (interrupted_world ["k"] ["4242"]) ++ before ++
               [Cleanup (ssh_cmd_for "10.0.0.1" +:+ " rm -r " +:+ REMOTE_TMP_DIR)] ++ after ∧
    filter is_cleanup before = [] ∧
    (1 ≤ length (filter is_pid_query before))%nat ∧
    forallb is_log after = true ∧
    length (filter is_cleanup
              (before ++ [Cleanup (ssh_cmd_for "10.0.0.1" +:+ " rm -r " +:+ REMOTE_TMP_DIR)]
               ++ after)) = 1%nat.
Proof.
  apply (C1_remote_interrupt constants 2 remote_step (interrupted_world ["k"] ["4242"])
           "10.0.0.1" "sleep 100" 1).
  - discriminate.
  - vm_compute; reflexivity.
  - vm_compute; reflexivity.
  - reflexivity.
  - lia.
  - intros i Hi. reflexivity.
  - left. vm_compute; reflexivity.
Defined.

Lemma C2_witness :
  execute constants 2 local_step false false (world 2 ["r"; "p"] []) =
  (Ret tt,
   past_failure_gate local_step 2
     (snd (step_body constants 0 local_step false
             (past_failure_gate local_step 2
                (snd (step_body constants 1 local_step false (world 2 ["r"; "p"] []))))))).
Proof.
  refine (proj2 (proj2 (proj2 (proj2
           (C2_failure_gate constants 1 local_step false (world 2 ["r"; "p"] [])
              (snd (step_body constants 1 local_step false (world 2 ["r"; "p"] [])))
              2 _ _))))
           0%nat
           (snd (step_body constants 0 local_step false
                   (past_failure_gate local_step 2
                      (snd (step_body constants 1 local_step false
                              (world 2 ["r"; "p"] []))))))
           _ _ _ _ _); try discriminate; vm_compute; reflexivity.
Defined.

Lemma C3_witness :
  execute constants 1 local_step false true (world 5 [] []) =
  (Ret tt,
   add_events (snd (step_body constants 0 local_step false (world 5 [] [])))
              [Log ERROR (failed_msg local_step 5)]).
Proof.
  refine (proj1 (C3_force_absorbs constants 0 local_step false (world 5 [] [])
                   (snd (step_body constants 0 local_step false (world 5 [] [])))
                   5 _ _)); try discriminate; vm_compute; reflexivity.
Defined.

Lemma C9_witness :
  execute constants 1 manual_step false false (world 0 ["s"] []) =
  (Ret tt, past_gate manual_step "Flip the switch" (world 0 ["s"] [])) ∧
  execute constants 1 manual_step false false (world 0 ["a"] []) =
  (Raise (AbortException "1"), past_gate manual_step "Flip the switch" (world 0 ["a"] [])).
Proof.
  split.
  - refine (proj1 (proj1 (C9_manual_gate constants 0 manual_step false false
                            (world 0 ["s"] []) "Flip the switch" "manual"
                            _ _ (or_introl eq_refl)) _));
      vm_compute; reflexivity.
  - refine (proj1 (proj2 (C9_manual_gate constants 0 manual_step false false
                            (world 0 ["a"] []) "Flip the switch" "manual"
                            _ _ (or_introl eq_refl))) _);
      vm_compute; reflexivity.
Defined.

(** C1 as it is stated fails: when the listing of the remote processes
    exits with another status than 0, [check_output] raises; the error
    leaves the executor, which returns no code and launches no removal of
    the staging directory. *)
Lemma C1_counterexample :
  imports remote_step ≠ [] ∧
  get_type remote_step = Ret "remote" ∧
  procs unreachable_world 0%nat = Interrupted ∧
  (∃ cmd, fst (_remote_action constants 2 remote_step unreachable_world) =
          Raise (CalledProcessError 255 cmd)) ∧
  length (filter is_pid_query
            (trace (snd (_remote_action constants 2 remote_step unreachable_world)))) = 1%nat ∧
  filter is_cleanup
    (trace (snd (_remote_action constants 2 remote_step unreachable_world))) = [].
Proof.
  split_and!; [discriminate|reflexivity|reflexivity| |vm_compute; reflexivity..].
  eexists. vm_compute. reflexivity.
Qed.

(** * Further properties of the executor *)

(** ** The key and its assignment prefix *)

Lemma has_char_nil (c : ascii) : has_char c "" = false.
Proof. reflexivity. Qed.

Lemma has_char_cons (c a : ascii) (s : string) :
  has_char c (String a s) = Ascii.eqb c a || has_char c s.
Proof.
  unfold has_char, Str.contains. rewrite find_sub_unfold.
  cbn [Str.strip_prefix]. destruct (Ascii.eqb c a); [done|].
  by destruct (Str.find_sub (String c "") s) as [[b r]|].
Qed.

Lemma has_char_app (c : ascii) (s t : string) :
  has_char c (s +:+ t) = has_char c s || has_char c t.
Proof.
  induction s as [|a s IH]; [done|].
  rewrite app_cons, !has_char_cons, IH. by rewrite orb_assoc.
Qed.

Lemma rsplit_None (c : ascii) (s : string) :
  has_char c s = false → Str.rsplit c s = None.
Proof.
  induction s as [|a s IH]; [done|].
  rewrite has_char_cons. intros [Ha Hs]%orb_false_elim.
  cbn [Str.rsplit]. rewrite (IH Hs). by rewrite Ascii.eqb_sym, Ha.
Qed.

Lemma rsplit_app (c : ascii) (l r : string) :
  has_char c r = false → Str.rsplit c (l +:+ String c r) = Some (l, r).
Proof.
  intros Hr. induction l as [|a l IH].
  - rewrite app_empty_l. cbn [Str.rsplit].
    by rewrite (rsplit_None c r Hr), Ascii.eqb_refl.
  - rewrite app_cons. cbn [Str.rsplit]. by rewrite IH.
Qed.




(** A text without line feed is its own single line. *)
Lemma lines_single (s : string) : has_char Str.LF s = false → Str.lines s = [s].
Proof.
  induction s as [|a s IH]; [done|].
  rewrite has_char_cons. intros [Ha Hs]%orb_false_elim.
  cbn [Str.lines]. rewrite Ascii.eqb_sym, Ha. by rewrite (IH Hs).
Qed.



Lemma get_assignment_var_unfold (key : string) :
  get_assignment_var key =
  if negb (has_char "=" key) then (false, "", key)
  else
    match List.find (has_char "=") (Str.lines key) with
    | Some l =>
        match Str.rsplit "="%char l with
        | Some (g1, g2) => (true, g1, g2)
        | None => (false, "", key)
        end
    | None => (false, "", key)
    end.
Proof. reflexivity. Qed.



Lemma get_assignment_var_one_line (var rest : string) :
  has_char Str.LF (var +:+ "=" +:+ rest) = false → has_char "=" rest = false →
  get_assignment_var (var +:+ "=" +:+ rest) = (true, var, rest).
Proof.
  intros Hlf Hrest.
  assert (has_char "=" (var +:+ "=" +:+ rest) = true) as Hk.
  { by rewrite !has_char_app, orb_true_r. }
  rewrite get_assignment_var_unfold, Hk. cbn [negb].
  rewrite (lines_single _ Hlf). cbn [List.find]. rewrite Hk.
  change (var +:+ "=" +:+ rest) with (var +:+ String "=" rest).
  by rewrite rsplit_app.
Qed.


(** X2.  [__init__] on an entry whose key is [var=kind] on one line,
    [kind] without equals sign: the step captures into [var], its key
    proper is [kind], so that it is classified as the key [kind] alone
    would be, and the key as written is kept for display; further pairs of
    the entry change nothing. *)
Theorem X2_init_assignment (var kind s : string) (rest : list (string * yaml))
    (idx : Z) (sys : gmap string string) (imps : list string) :
  has_char Str.LF (var +:+ "=" +:+ kind) = false →
  has_char "=" kind = false →
  ∃ c, Command_init ((var +:+ "=" +:+ kind, YStr s) :: rest) idx sys imps = Ret (Some c) ∧
       orig_key c = var +:+ "=" +:+ kind ∧ assignment c = true ∧
       assignment_var c = var ∧ key c = kind ∧ value c = s ∧
       get_type c = get_type (mkCommand [] idx sys imps kind false "" kind s).
Proof.
  intros Hlf Hkind. unfold Command_init.
  rewrite (get_assignment_var_one_line var kind Hlf Hkind).
  eexists. split; [reflexivity|]. done.
Qed.

(** ** Host lookup *)

Lemma remote_name_is_Some (k : string) :
  Str.contains "remote@" k = true → ∃ h, remote_name k = Some h.
Proof.
  unfold Str.contains, remote_name.
  destruct (Str.find_sub "remote@" k) as [[pre r]|]; [eauto|done].
Qed.

(** X3.  [get_system] fails in two ways only: with the classifier's
    [UnknownCommandException] on an unknown key, and with [KeyError] on the
    host name of a remote key that [systems] lacks.  The pattern with the
    group always matches a key classified remote (no [AttributeError]);
    a result other than [localhost] comes from [systems]. *)
Theorem X3_get_system_outcomes (c : Command) :
  (∀ e, get_system c = Raise e →
     get_type c = Raise e ∨
     (get_type c = Ret "remote" ∧
      ∃ h, remote_name (key c) = Some h ∧ systems c !! h = None ∧ e = KeyError h)) ∧
  (∀ a, get_system c = Ret a →
     (get_type c ≠ Ret "remote" ∧ a = "localhost") ∨
     (get_type c = Ret "remote" ∧
      ∃ h, remote_name (key c) = Some h ∧ systems c !! h = Some a)) ∧
  (∀ msg, get_system c ≠ Raise (AttributeError msg)) ∧
  get_system c ≠ Unfinished.
Proof.
  unfold get_system.
  destruct (get_type_cases c) as
    [[Hk Ht]|[[Hk Ht]|[[Hk Ht]|[(H1 & H2 & H3 & Hc & Ht)|(H1 & H2 & H3 & Hc & Ht)]]]];
    rewrite Ht.
  1-3: split_and!; try done; intros a [= <-]; by left.
  - destruct (remote_name_is_Some _ Hc) as [h Hh]. rewrite Hh. cbn.
    destruct (systems c !! h) as [a|] eqn:Hs.
    + split_and!; try done. intros a' [= <-]. right. eauto.
    + split_and!; try done. intros e [= <-]. right. eauto 6.
  - split_and!; try done. intros e [= <-]. by left.
Qed.

(** ** Resolution *)

Import PyFormat.

Lemma render_brace_free (kw : gmap string string) (s out : string) :
  has_char "{" s = false → has_char "}" s = false →
  render kw Text out s = Ret (out +:+ s).
Proof.
  revert out. induction s as [|a s IH]; intros out H1 H2.
  - by rewrite app_empty_r.
  - rewrite has_char_cons in H1, H2.
    apply orb_false_elim in H1 as [H1 H1'], H2 as [H2 H2'].
    rewrite render_text_cons by (by rewrite Ascii.eqb_sym).
    rewrite IH by done. by rewrite app_assoc.
Qed.

Section ResolutionMore.
Variable CONSTANTS : gmap string string.

(** X4.  A template without braces resolves to itself, whatever the
    variables and the constants hold. *)
Theorem X4_brace_free_template (c : Command) (vars : gmap string string) :
  has_char "{" (value c) = false → has_char "}" (value c) = false →
  get_resolved_value CONSTANTS c vars = Ret (value c).
Proof.
  intros H1 H2. unfold get_resolved_value, format.
  by rewrite render_brace_free.
Qed.

(** X5.  A placeholder that names a user variable, the name not being
    [const_] followed by the name of a constant, is replaced by the
    variable's value as it is: the value is not scanned for placeholders
    or braces of its own (one pass), and the text around it is rendered on
    its own. *)
Theorem X5_variable_verbatim (c : Command) (vars : gmap string string)
    (pre name post v pre' post' : string) :
  value c = pre +:+ "{" +:+ name +:+ "}" +:+ post →
  plain name = true → all_digits name = false →
  vars !! name = Some v →
  (∀ k, name = "const_" +:+ k → CONSTANTS !! k = None) →
  format pre (merged_variables CONSTANTS vars) = Ret pre' →
  format post (merged_variables CONSTANTS vars) = Ret post' →
  get_resolved_value CONSTANTS c vars = Ret (pre' +:+ v +:+ post').
Proof.
  intros Hval Hp Hd Hv Hk Hpre Hpost. unfold get_resolved_value, format in *.
  rewrite Hval, (render_app _ _ _ _ _ Hpre).
  change ("{" +:+ name +:+ "}" +:+ post) with (String "{" (name +:+ String "}" post)).
  rewrite render_placeholder by done.
  unfold get_field. rewrite Hd, (merged_variables_other CONSTANTS vars name Hk), Hv.
  rewrite render_out. unfold format. rewrite Hpost. cbn [map_result].
  by rewrite app_assoc.
Qed.

End ResolutionMore.

(** ** The command builder and the local executor *)


Lemma join_sourced (path v imp : string) (imps : list string) :
  ". " +:+ path +:+ "/" +:+ Str.join ("; . " +:+ path +:+ "/") (imp :: imps) +:+ "; " +:+ v
  = sourced path (imp :: imps) v.
Proof.
  revert imp. induction imps as [|imp2 imps IH]; intros imp; [done|].
  change (Str.join ("; . " +:+ path +:+ "/") (imp :: imp2 :: imps))
    with (imp +:+ ("; . " +:+ path +:+ "/") +:+
          Str.join ("; . " +:+ path +:+ "/") (imp2 :: imps)).
  change (sourced path (imp :: imp2 :: imps) v)
    with (". " +:+ path +:+ "/" +:+ imp +:+ "; " +:+ sourced path (imp2 :: imps) v).
  rewrite <- IH. rewrite !app_assoc. reflexivity.
Qed.

Section Executors.
Variable CONSTANTS : gmap string string.

Lemma build_command_eq (c : Command) (path : string) (w : World) :
  _build_command CONSTANTS c path w =
  (map_result (sourced path (imports c)) (get_resolved_value CONSTANTS c (vars w)), w).
Proof.
  unfold _build_command.
  destruct (imports c) as [|imp imps].
  - unfold resolved. by destruct (get_resolved_value CONSTANTS c (vars w)).
  - unfold bind, resolved.
    destruct (get_resolved_value CONSTANTS c (vars w)) as [v|e|]; [|done..].
    unfold ret. cbn [map_result]. by rewrite join_sourced.
Qed.

(** X6.  [_build_command] changes nothing in the surroundings, fails as
    the resolution fails, and otherwise gives one directive sourcing
    [path/import] for each import, in the order of the imports, followed
    by the resolved command; for a single import [i] that is the text
    [. path/i; command], and without imports the command alone. *)
Theorem X6_build_command (c : Command) (path : string) (w : World) :
  _build_command CONSTANTS c path w =
    (map_result (sourced path (imports c)) (get_resolved_value CONSTANTS c (vars w)), w) ∧
  (∀ v, sourced path [] v = v) ∧
  (∀ v i, sourced path [i] v = ". " +:+ path +:+ "/" +:+ i +:+ "; " +:+ v) ∧
  (∀ v l1 l2, sourced path (l1 ++ l2) v = sourced path l1 (sourced path l2 v)).
Proof.
  split_and!; [apply build_command_eq|done|done|].
  intros v l1 l2. unfold sourced. by rewrite fold_right_app.
Qed.


Lemma build_command_Ret (c : Command) (path v : string) (w : World) :
  get_resolved_value CONSTANTS c (vars w) = Ret v →
  _build_command CONSTANTS c path w = (Ret (sourced path (imports c) v), w).
Proof. intros H. by rewrite build_command_eq, H. Qed.

Lemma run_local_command_exited (c : Command) (cmd : string) (w : World)
    (code : Z) (out : string) :
  procs w 0%nat = Exited code out →
  _run_local_command c cmd w =
  (Ret code,
   if assignment c then
     add_events
       (captured (assignment_var c) out
          (launched (add_events w [Log DEBUG ("Executing: " +:+ cmd); Shell cmd true])))
       [Log INFO ("Variable " +:+ assignment_var c +:+ " = " +:+ out)]
   else launched (add_events w [Log DEBUG ("Executing: " +:+ cmd); Shell cmd false])).
Proof.
  intros H. unfold _run_local_command.
  rewrite bind_log, bind_emit, bind_next_proc. world_simpl. rewrite H.
  rewrite add_events_app. by destruct (assignment c).
Qed.


Lemma local_action_exited (c : Command) (w : World) (v out : string) (code : Z) :
  get_resolved_value CONSTANTS c (vars w) = Ret v →
  procs w 0%nat = Exited code out →
  _local_action CONSTANTS c w =
  (Ret code,
   if assignment c then
     add_events
       (captured (assignment_var c) out
          (launched (add_events w
             [Log DEBUG ("Executing: " +:+ sourced IMPORT_PATH (imports c) v);
              Shell (sourced IMPORT_PATH (imports c) v) true])))
       [Log INFO ("Variable " +:+ assignment_var c +:+ " = " +:+ out)]
   else launched (add_events w
          [Log DEBUG ("Executing: " +:+ sourced IMPORT_PATH (imports c) v);
           Shell (sourced IMPORT_PATH (imports c) v) false])).
Proof.
  intros Hv Hp. unfold _local_action.
  rewrite (bind_eq _ _ _ _ _ (build_command_Ret c IMPORT_PATH v w Hv)).
  unfold on_interrupt. by rewrite (run_local_command_exited _ _ _ _ _ Hp).
Qed.





(** ** The interpreted executor *)




(** ** The remote executor *)

(** Once the host and the template are resolved, the remote executor is
    the guarded launch followed by the removal of the staging directory. *)
Lemma remote_action_resolved (fuel : nat) (c : Command) (w : World)
    (hostname v : string) :
  get_system c = Ret hostname →
  get_resolved_value CONSTANTS c (vars w) = Ret v →
  _remote_action CONSTANTS fuel c w =
  (exitcode <- on_interrupt (_run_local_command c (remote_command c hostname v))
                 (log INFO interrupted_msg ;;
                  v <- resolved CONSTANTS c ;;
                  ps_pids <- get_remote_pids hostname v ;;
                  escalate CONSTANTS fuel c hostname (ssh_cmd_for hostname) ps_pids ;;
                  log INFO ("Keystroke interrupt handled." +:+ String Str.LF "") ;;
                  ret 130) ;;
   match imports c with
   | [] => ret tt
   | _ =>
       log DEBUG ("Executing: " +:+ cleanup_command hostname) ;;
       emit (Cleanup (cleanup_command hostname)) ;;
       returncode <- next_removal ;;
       if returncode =? 0 then ret tt
       else log WARNING ("Failed to remove " +:+ REMOTE_TMP_DIR +:+
                         ", exitcode: " +:+ pretty returncode)
   end ;;
   ret exitcode) w.
Proof.
  intros Hsys Hv. unfold _remote_action. rewrite Hsys, bind_lift_Ret.
  rewrite (bind_resolved _ _ v) by done.
  unfold remote_command. destruct (imports c) as [|imp imps] eqn:Hi.
  - by rewrite bind_ret.
  - rewrite bind_assoc. unfold _build_command at 1. rewrite Hi.
    rewrite bind_assoc, (bind_resolved _ _ v) by done.
    by rewrite bind_ret, bind_ret.
Qed.



(** X11.  The remote executor of a step without imports, interrupted:
    under the conditions under which the signal loop ends, it returns 130
    and launches no removal (nothing was staged); the removals' answers
    and the variables are left as they were. *)
Theorem X11_remote_interrupt_unstaged (fuel : nat) (c : Command) (w : World)
    (hostname v : string) (j : nat) :
  imports c = [] →
  get_system c = Ret hostname →
  get_resolved_value CONSTANTS c (vars w) = Ret v →
  procs w 0%nat = Interrupted →
  (j < fuel)%nat →
  (∀ i, (i ≤ j)%nat → fst (listings w i) = 0) →
  (Str.split_ws (snd (listings w j)) = [] ∨ typed w j = "p") →
  ∃ w' q loop_events,
    _remote_action CONSTANTS fuel c w = (Ret 130, w') ∧
    trace w' = trace w ++
      [Log DEBUG ("Executing: " +:+ remote_command c hostname v);
       Shell (remote_command c hostname v) (assignment c);
       Log INFO interrupted_msg; PidQuery q] ++ loop_events ++
      [Log INFO ("Keystroke interrupt handled." +:+ String Str.LF "")] ∧
    forallb is_loop_event loop_events = true ∧
    filter is_cleanup (trace w') = filter is_cleanup (trace w) ∧
    removals w' = removals w ∧ vars w' = vars w.
Proof.
  intros Himp Hsys Hv Hint Hfuel Hok Hend.
  rewrite (remote_action_resolved fuel c w hostname v Hsys Hv).
  unfold bind at 1. unfold on_interrupt at 1.
  rewrite run_local_command_interrupted by done.
  rewrite bind_log. rewrite (bind_resolved _ _ v) by done.
  match goal with
  | |- context [bind (get_remote_pids ?h ?cmd) ?k ?w1] =>
      destruct (bind_get_remote_pids h cmd k w1) as [q ->]
  end.
  { world_simpl. apply Hok. lia. }
  world_simpl.
  match goal with
  | |- context [bind (escalate _ ?f ?c ?h ?ssh ?ps) ?k ?w3] =>
      destruct (escalate_ends CONSTANTS c h ssh v j f ps w3)
        as (w' & evs & He & Hvars & Hprocs & Hrem & Hev & Htr & Hall);
      [lia|done| | |]
  end.
  - intros i H. world_simpl. unfold tl. apply Hok. lia.
  - world_simpl. destruct Hend as [Hend|Hend]; [left|by right].
    destruct j as [|j]; cbn [round_pids]; world_simpl; exact Hend.
  - rewrite (bind_eq _ _ _ _ _ He).
    rewrite bind_log. unfold ret at 1. cbv beta iota. rewrite Himp.
    eexists _, q, evs. split; [reflexivity|]. world_simpl.
    rewrite Htr, Hrem, Hvars. world_simpl.
    split_and!; try done.
    + rewrite <- !List.app_assoc. reflexivity.
    + rewrite <- !List.app_assoc, !filter_app.
      rewrite (loop_events_no_cleanup evs Hall). cbn. by rewrite List.app_nil_r.
Qed.


(** ** Dispatch and the fatal errors of [execute] *)

Lemma bind_ret_r {A} (m : M A) (w : World) : bind m (λ x, ret x) w = m w.
Proof. unfold bind. by destruct (m w) as [[a|e|] w']. Qed.

Lemma dispatch_local (fuel : nat) (c : Command) (w : World) :
  key c = "local" → dispatch CONSTANTS fuel c w = _local_action CONSTANTS c w.
Proof.
  intros Hk. unfold dispatch, get_type. rewrite Hk.
  cbn [String.eqb Ascii.eqb Bool.eqb].
  rewrite !bind_lift_Ret. cbn [String.eqb Ascii.eqb Bool.eqb].
  unfold bind. by destruct (_local_action CONSTANTS c w) as [[a|e|] w'].
Qed.

Lemma dispatch_python (fuel : nat) (c : Command) (w : World) :
  key c = "python" → dispatch CONSTANTS fuel c w = _python_action CONSTANTS c w.
Proof.
  intros Hk. unfold dispatch, get_type. rewrite Hk.
  cbn [String.eqb Ascii.eqb Bool.eqb].
  rewrite !bind_lift_Ret. cbn [String.eqb Ascii.eqb Bool.eqb].
  rewrite bind_ret, bind_lift_Ret. cbn [String.eqb Ascii.eqb Bool.eqb].
  unfold bind. by destruct (_python_action CONSTANTS c w) as [[a|e|] w'].
Qed.

Lemma dispatch_remote (fuel : nat) (c : Command) (w : World) :
  get_type c = Ret "remote" →
  dispatch CONSTANTS fuel c w = _remote_action CONSTANTS fuel c w.
Proof. intros Ht. unfold dispatch. rewrite Ht. by rewrite !bind_lift_Ret. Qed.

Lemma dispatch_unknown (fuel : nat) (c : Command) (w : World) (e : exn) :
  get_type c = Raise e → dispatch CONSTANTS fuel c w = (Raise e, w).
Proof. intros Ht. unfold dispatch. by rewrite Ht. Qed.

(** X12.  The dispatch runs the executor of the step's kind, and that
    one alone: its outcome is the outcome of the local executor for the
    key [local], of the interpreted executor for [python], of the remote
    executor for a remote key; for [manual] it is the return code 0 with
    nothing done; for any other key the classifier's exception. *)
Theorem X12_dispatch_by_kind (fuel : nat) (c : Command) (w : World) :
  (key c = "local" → dispatch CONSTANTS fuel c w = _local_action CONSTANTS c w) ∧
  (key c = "python" → dispatch CONSTANTS fuel c w = _python_action CONSTANTS c w) ∧
  (key c = "manual" → dispatch CONSTANTS fuel c w = (Ret 0, w)) ∧
  (get_type c = Ret "remote" →
   dispatch CONSTANTS fuel c w = _remote_action CONSTANTS fuel c w) ∧
  (∀ e, get_type c = Raise e → dispatch CONSTANTS fuel c w = (Raise e, w)).
Proof.
  split_and!.
  - apply dispatch_local.
  - apply dispatch_python.
  - intros Hk. apply dispatch_manual. unfold get_type. by rewrite Hk.
  - apply dispatch_remote.
  - intros e. apply dispatch_unknown.
Qed.

(** X13.  What stops a step for good, whatever the flags.  A template
    that does not resolve makes [execute] raise at once: there is no
    notice, no prompt and no launch, and the force flag absorbs nothing.
    A key of unknown kind raises the classifier's exception right after
    the notice, before the gate is asked even in interactive mode.  A
    remote step whose host [systems] lacks raises [KeyError] on the host
    name from the dispatch, with nothing launched. *)
Theorem X13_execute_fatal (fuel : nat) (c : Command) (interactive force : bool)
    (w : World) :
  (∀ e, get_resolved_value CONSTANTS c (vars w) = Raise e →
        execute CONSTANTS (S fuel) c interactive force w = (Raise e, w)) ∧
  (∀ v e, get_resolved_value CONSTANTS c (vars w) = Ret v →
          get_type c = Raise e →
          execute CONSTANTS (S fuel) c interactive force w =
          (Raise e, add_events w [Log NOTICE (notice_msg c v)])) ∧
  (∀ v h, get_resolved_value CONSTANTS c (vars w) = Ret v →
          get_type c = Ret "remote" →
          remote_name (key c) = Some h → systems c !! h = None →
          interactive = false →
          execute CONSTANTS (S fuel) c interactive force w =
          (Raise (KeyError h), add_events w [Log NOTICE (notice_msg c v)])).
Proof.
  split_and!.
  - intros e He. rewrite execute_unfold. unfold step_body.
    unfold bind, resolved. by rewrite He.
  - intros v e Hv Ht. rewrite execute_unfold. unfold step_body.
    rewrite bind_assoc, (bind_resolved _ _ v) by done.
    rewrite bind_assoc, bind_log, Ht. reflexivity.
  - intros v h Hv Ht Hh Hs ->. rewrite execute_unfold. unfold step_body.
    rewrite bind_assoc, (bind_resolved _ _ v) by done.
    rewrite bind_assoc, bind_log, Ht, bind_assoc, bind_lift_Ret.
    change (String.eqb "remote" "manual" || false) with false. cbv iota.
    rewrite bind_assoc. unfold bind at 1. rewrite dispatch_remote by done.
    unfold _remote_action, get_system. rewrite Ht.
    cbn [String.eqb Ascii.eqb Bool.eqb]. rewrite Hh, Hs. reflexivity.
Qed.


(** ** The signal loop and the process listing *)

Lemma kill_events_kills (hostname ssh_cmd signal : string) (ps_pids : list string) :
  filter is_kill (kill_events hostname ssh_cmd signal ps_pids) =
  map (λ pid, Kill (ssh_cmd +:+ " kill -" +:+ signal +:+ " " +:+ pid)) ps_pids.
Proof.
  induction ps_pids as [|pid rest IH]; [done|].
  cbn. f_equal. exact IH.
Qed.

(** X14.  One round of the signal loop, entered with processes listed.
    On [p] the loop ends at once: nothing is signalled and nothing listed
    again.  On any other answer every listed process is sent the selected
    signal ([t]: TERM, [k]: KILL, anything else: INT) once, in the order
    of the listing, and only then the processes are listed again; the loop
    goes on with that listing, or the failure of the listing leaves the
    loop as [CalledProcessError]. *)
Theorem X14_signal_round (fuel : nat) (c : Command) (hostname ssh_cmd v : string)
    (ps_pids : list string) (w : World) :
  ps_pids ≠ [] →
  get_resolved_value CONSTANTS c (vars w) = Ret v →
  (typed w 0%nat = "p" →
     escalate CONSTANTS (S fuel) c hostname ssh_cmd ps_pids w =
     (Ret tt,
      read_line (add_events w
        [Log NOTICE ("Remote command seems still to be running! Found PIDs: "
                     +:+ Str.join "," ps_pids);
         Prompt signal_prompt]))) ∧
  (typed w 0%nat ≠ "p" →
     ∃ q,
       escalate CONSTANTS (S fuel) c hostname ssh_cmd ps_pids w =
       (if fst (listings w 0%nat) =? 0
        then escalate CONSTANTS fuel c hostname ssh_cmd
               (Str.split_ws (snd (listings w 0%nat)))
        else raise (CalledProcessError (fst (listings w 0%nat)) q))
         (listed (add_events (read_line (add_events w
            [Log NOTICE ("Remote command seems still to be running! Found PIDs: "
                         +:+ Str.join "," ps_pids);
             Prompt signal_prompt]))
            (kill_events hostname ssh_cmd (signal_of (typed w 0%nat)) ps_pids
             ++ [PidQuery q])))) ∧
  (∀ signal,
     filter is_kill (kill_events hostname ssh_cmd signal ps_pids) =
     map (λ pid, Kill (ssh_cmd +:+ " kill -" +:+ signal +:+ " " +:+ pid)) ps_pids).
Proof.
  intros Hne Hv. split_and!.
  - intros Hp. rewrite escalate_round by done.
    rewrite bind_log, bind_input. world_simpl. rewrite Hp.
    by rewrite add_events_app.
  - intros Hp. apply String.eqb_neq in Hp. rewrite escalate_round by done.
    rewrite bind_log, bind_input. world_simpl. rewrite Hp.
    rewrite bind_kills, (bind_resolved _ _ v) by done.
    unfold get_remote_pids. eexists.
    rewrite bind_assoc, bind_emit, bind_assoc, bind_next_listing. world_simpl.
    rewrite !add_events_app.
    destruct (fst (listings w 0%nat) =? 0); reflexivity.
  - intros signal. apply kill_events_kills.
Qed.

Lemma split_go_tokens (s cur tok : string) :
  no_blank cur = true → tok ∈ Str.split_go cur s → tok ≠ "" ∧ no_blank tok = true.
Proof.
  revert cur. induction s as [|a s IH]; intros cur Hcur; cbn [Str.split_go].
  - destruct cur; [by intros ?%elem_of_nil|]. by intros ->%list_elem_of_singleton.
  - destruct (Str.is_space a) eqn:Ha.
    + destruct cur as [|b cur]; [by apply IH|].
      intros [->|H]%elem_of_cons; [done|]. by apply (IH "").
    + apply IH. clear IH. induction cur as [|b cur IHc].
      * rewrite app_empty_l. cbn [no_blank]. by rewrite Ha.
      * rewrite app_cons. cbn [no_blank] in *.
        apply andb_prop in Hcur as [-> Hcur]. by apply IHc.
Qed.

Lemma split_go_nil (s cur : string) :
  Str.split_go cur s = [] ↔ cur = "" ∧ all_blank s = true.
Proof.
  revert cur. induction s as [|a s IH]; intros cur; cbn [Str.split_go all_blank].
  - destruct cur; [by split|]. split; [done|by intros [? _]].
  - destruct (Str.is_space a) eqn:Ha; cbn [andb].
    + destruct cur as [|b cur]; [apply IH|]. split; [done|by intros [? _]].
    + rewrite IH. split; [|by intros [_ ?]].
      intros [H _]. by destruct cur.
Qed.

(** X15.  The process listing.  It is one [check_output] call; when that
    exits with another status than 0, [CalledProcessError] is raised with
    that status; otherwise the process ids are the blank-separated words
    of its output: each is non-empty and free of blanks, and there is none
    exactly when the output is blank throughout. *)
Theorem X15_get_remote_pids (hostname cmd : string) :
  ∃ q, ∀ w : World,
    (fst (listings w 0%nat) ≠ 0 →
       get_remote_pids hostname cmd w =
       (Raise (CalledProcessError (fst (listings w 0%nat)) q),
        listed (add_events w [PidQuery q]))) ∧
    (fst (listings w 0%nat) = 0 →
       get_remote_pids hostname cmd w =
       (Ret (Str.split_ws (snd (listings w 0%nat))),
        listed (add_events w [PidQuery q]))) ∧
    (∀ pid, pid ∈ Str.split_ws (snd (listings w 0%nat)) →
            pid ≠ "" ∧ no_blank pid = true) ∧
    (Str.split_ws (snd (listings w 0%nat)) = [] ↔
     all_blank (snd (listings w 0%nat)) = true).
Proof.
  eexists. intros w. unfold get_remote_pids.
  rewrite bind_emit, bind_next_listing. world_simpl. split_and!.
  - intros H. apply Z.eqb_neq in H. rewrite H. reflexivity.
  - intros ->. reflexivity.
  - intros pid. by apply split_go_tokens.
  - unfold Str.split_ws. rewrite split_go_nil. split; [by intros [_ ?]|by intros ?].
Qed.


(** ** A local step from end to end *)

Lemma step_body_no_gate (fuel : nat) (c : Command) (w : World) (v t : string) :
  get_resolved_value CONSTANTS c (vars w) = Ret v →
  get_type c = Ret t → String.eqb t "manual" = false →
  step_body CONSTANTS fuel c false w =
  (return_code <- dispatch CONSTANTS fuel c ;; ret (Some return_code))
    (add_events w [Log NOTICE (notice_msg c v)]).
Proof.
  intros Hv Ht Hm. unfold step_body.
  rewrite (bind_resolved _ _ v) by done.
  by rewrite bind_log, Ht, bind_lift_Ret, Hm.
Qed.



(** ** A failing listing, and repeated retries *)

(** X17.  The remote executor, interrupted, when the first listing of
    the remote processes exits with another status than 0:
    [CalledProcessError] leaves the executor, which returns no code, asks
    nothing and, imports or not, launches no removal of the staging
    directory. *)
Theorem X17_remote_listing_fails (fuel : nat) (c : Command) (w : World)
    (hostname v : string) :
  get_system c = Ret hostname →
  get_resolved_value CONSTANTS c (vars w) = Ret v →
  procs w 0%nat = Interrupted →
  fst (listings w 0%nat) ≠ 0 →
  ∃ q w',
    _remote_action CONSTANTS fuel c w =
      (Raise (CalledProcessError (fst (listings w 0%nat)) q), w') ∧
    trace w' = trace w ++
      [Log DEBUG ("Executing: " +:+ remote_command c hostname v);
       Shell (remote_command c hostname v) (assignment c);
       Log INFO interrupted_msg; PidQuery q] ∧
    typed w' = typed w ∧ removals w' = removals w.
Proof.
  intros Hsys Hv Hint Hst.
  rewrite (remote_action_resolved fuel c w hostname v Hsys Hv).
  unfold bind at 1. unfold on_interrupt at 1.
  rewrite run_local_command_interrupted by done.
  rewrite bind_log. rewrite (bind_resolved _ _ v) by done.
  unfold get_remote_pids.
  rewrite bind_assoc, bind_emit, bind_assoc, bind_next_listing. world_simpl.
  apply Z.eqb_neq in Hst. rewrite Hst.
  eexists _, _. split; [reflexivity|]. world_simpl.
  split_and!; try done. by rewrite <- !List.app_assoc.
Qed.

(** X18.  Retrying again and again.  A local step without assignment,
    outside interactive mode, whose command exits with a code other than 0
    each time, answered with [r] at the first [n] failure gates and with
    [p] at the next: [execute] ends without an exception, the command has
    been launched [n + 1] times and the operator asked [n + 1] times; fuel
    above [n] is enough. *)
Theorem X18_retries (n : nat) :
  ∀ (fuel : nat) (c : Command) (w : World) (v : string),
    (n < fuel)%nat →
    key c = "local" → assignment c = false →
    get_resolved_value CONSTANTS c (vars w) = Ret v →
    (∀ i, (i ≤ n)%nat → ∃ code out, procs w i = Exited code out ∧ code ≠ 0) →
    (∀ i, (i < n)%nat → typed w i = "r") →
    typed w n = "p" →
    ∃ w' evs,
      execute CONSTANTS fuel c false false w = (Ret tt, w') ∧
      trace w' = trace w ++ evs ∧
      length (filter is_shell evs) = S n ∧
      length (filter is_prompt evs) = S n ∧
      filter is_shell evs =
        replicate (S n) (Shell (sourced IMPORT_PATH (imports c) v) false) ∧
      vars w' = vars w.
Proof.
  induction n as [|n IH]; intros fuel c w v Hfuel Hk Ha Hv Hprocs Hr Hp.
  - destruct fuel as [|fuel]; [lia|].
    destruct (Hprocs 0%nat ltac:(lia)) as (code & out & Hp0 & Hcode).
    assert (get_type c = Ret "local") as Ht by (unfold get_type; by rewrite Hk).
    pose proof (step_body_no_gate fuel c w v "local" Hv Ht eq_refl) as Hbody.
    assert (dispatch CONSTANTS fuel c (add_events w [Log NOTICE (notice_msg c v)]) =
            _local_action CONSTANTS c (add_events w [Log NOTICE (notice_msg c v)]))
      as Hd by (by apply dispatch_local).
    rewrite (local_action_exited c (add_events w [Log NOTICE (notice_msg c v)])
               v out code Hv Hp0), Ha in Hd.
    rewrite (bind_eq _ _ _ _ _ Hd) in Hbody.
    rewrite execute_unfold, (bind_eq _ _ _ _ _ Hbody).
    apply Z.eqb_neq in Hcode. rewrite Hcode.
    rewrite bind_log, bind_input. world_simpl. rewrite Hp.
    eexists _, [_; _; _; _; _]. split; [reflexivity|]. world_simpl.
    split_and!; [by rewrite <- !List.app_assoc|reflexivity..].
  - destruct fuel as [|fuel]; [lia|].
    destruct (Hprocs 0%nat ltac:(lia)) as (code & out & Hp0 & Hcode).
    assert (get_type c = Ret "local") as Ht by (unfold get_type; by rewrite Hk).
    pose proof (step_body_no_gate fuel c w v "local" Hv Ht eq_refl) as Hbody.
    assert (dispatch CONSTANTS fuel c (add_events w [Log NOTICE (notice_msg c v)]) =
            _local_action CONSTANTS c (add_events w [Log NOTICE (notice_msg c v)]))
      as Hd by (by apply dispatch_local).
    rewrite (local_action_exited c (add_events w [Log NOTICE (notice_msg c v)])
               v out code Hv Hp0), Ha in Hd.
    rewrite (bind_eq _ _ _ _ _ Hd) in Hbody.
    rewrite execute_unfold, (bind_eq _ _ _ _ _ Hbody).
    apply Z.eqb_neq in Hcode. rewrite Hcode.
    rewrite bind_log, bind_input. world_simpl. rewrite (Hr 0%nat) by lia.
    rewrite String.eqb_refl.
    match goal with
    | |- context [execute _ _ _ _ _ ?w2] =>
        destruct (IH fuel c w2 v) as (w' & evs & He & Htr & Hs & Hq & Hrep & Hvars)
    end.
    + lia.
    + done.
    + done.
    + done.
    + intros i Hi. world_simpl. unfold tl. apply Hprocs. lia.
    + intros i Hi. world_simpl. unfold tl. apply Hr. lia.
    + world_simpl. exact Hp.
    + rewrite He.
      exists w', ([Log NOTICE (notice_msg c v);
                   Log DEBUG ("Executing: " +:+ sourced IMPORT_PATH (imports c) v);
                   Shell (sourced IMPORT_PATH (imports c) v) false;
                   Log ERROR (failed_msg c code); Prompt failure_prompt] ++ evs).
      split; [reflexivity|]. rewrite Htr, Hvars. world_simpl.
      split_and!.
      * by rewrite <- !List.app_assoc.
      * rewrite filter_app, length_app, Hs. reflexivity.
      * rewrite filter_app, length_app, Hq. reflexivity.
      * rewrite filter_app, Hrep. reflexivity.
      * done.
Qed.

End Executors.

(** ** The further properties at sample inputs *)

Import Sample Cases.

Lemma X2_witness :
  ∃ c, Command_init [("result=local", YStr "echo hi")] 1 ∅ [] = Ret (Some c) ∧
       orig_key c = "result" +:+ "=" +:+ "local" ∧ assignment c = true ∧
       assignment_var c = "result" ∧ key c = "local" ∧ value c = "echo hi" ∧
       get_type c = get_type (mkCommand [] 1 ∅ [] "local" false "" "local" "echo hi").
Proof.
  apply (X2_init_assignment "result" "local" "echo hi" [] 1 ∅ []);
    vm_compute; reflexivity.
Defined.

Lemma X4_witness :
  get_resolved_value constants local_step ∅ = Ret (value local_step).
Proof. apply X4_brace_free_template; vm_compute; reflexivity. Defined.

Lemma X5_witness :
  get_resolved_value constants home_step {["dir" := "x{y}"]} =
  Ret ("cd /srv && ls " +:+ "x{y}" +:+ "").
Proof.
  apply (X5_variable_verbatim constants home_step {["dir" := "x{y}"]}
           "cd {const_HOME} && ls " "dir" "").
  1-4, 6-7: vm_compute; reflexivity.
  intros k Hk. discriminate Hk.
Defined.



Lemma X11_witness :
  ∃ w' q loop_events,
    _remote_action constants 2 unstaged_step (interrupted_world ["k"] ["4242"]) =
      (Ret 130, w') ∧
    trace w' = trace (interrupted_world ["k"] ["4242"]) ++
      [Log DEBUG ("Executing: " +:+ remote_command unstaged_step "10.0.0.1" "uptime");
       Shell (remote_command unstaged_step "10.0.0.1" "uptime") (assignment unstaged_step);
       Log INFO interrupted_msg; PidQuery q] ++ loop_events ++
      [Log INFO ("Keystroke interrupt handled." +:+ String Str.LF "")] ∧
    forallb is_loop_event loop_events = true ∧
    filter is_cleanup (trace w') =
      filter is_cleanup (trace (interrupted_world ["k"] ["4242"])) ∧
    removals w' = removals (interrupted_world ["k"] ["4242"]) ∧
    vars w' = vars (interrupted_world ["k"] ["4242"]).
Proof.
  apply (X11_remote_interrupt_unstaged constants 2 unstaged_step
           (interrupted_world ["k"] ["4242"]) "10.0.0.1" "uptime" 1).
  - reflexivity.
  - vm_compute; reflexivity.
  - vm_compute; reflexivity.
  - reflexivity.
  - lia.
  - intros i Hi. reflexivity.
  - left. vm_compute; reflexivity.
Defined.

Lemma X14_witness :
  escalate constants 1 remote_step "10.0.0.1" (ssh_cmd_for "10.0.0.1") ["4242"]
    (interrupted_world [] []) =
  (Ret tt,
   read_line (add_events (interrupted_world [] [])
     [Log NOTICE ("Remote command seems still to be running! Found PIDs: "
                  +:+ Str.join "," ["4242"]);
      Prompt signal_prompt])).
Proof.
  refine (proj1 (X14_signal_round constants 0 remote_step "10.0.0.1"
                   (ssh_cmd_for "10.0.0.1") "sleep 100" ["4242"]
                   (interrupted_world [] []) _ _) _).
  - discriminate.
  - vm_compute; reflexivity.
  - reflexivity.
Defined.


Lemma X17_witness :
  ∃ q w',
    _remote_action constants 2 remote_step unreachable_world =
      (Raise (CalledProcessError (fst (listings unreachable_world 0%nat)) q), w') ∧
    trace w' = trace unreachable_world ++
      [Log DEBUG ("Executing: " +:+ remote_command remote_step "10.0.0.1" "sleep 100");
       Shell (remote_command remote_step "10.0.0.1" "sleep 100") (assignment remote_step);
       Log INFO interrupted_msg; PidQuery q] ∧
    typed w' = typed unreachable_world ∧ removals w' = removals unreachable_world.
Proof.
  apply (X17_remote_listing_fails constants 2 remote_step unreachable_world
           "10.0.0.1" "sleep 100").
  - vm_compute; reflexivity.
  - vm_compute; reflexivity.
  - reflexivity.
  - discriminate.
Defined.

Lemma X18_witness :
  ∃ w' evs,
    execute constants 3 local_step false false (world 2 ["r"; "r"] []) = (Ret tt, w') ∧
    trace w' = trace (world 2 ["r"; "r"] []) ++ evs ∧
    length (filter is_shell evs) = 3%nat ∧
    length (filter is_prompt evs) = 3%nat ∧
    filter is_shell evs =
      replicate 3 (Shell (sourced IMPORT_PATH (imports local_step) "make test") false) ∧
    vars w' = vars (world 2 ["r"; "r"] []).
Proof.
  apply (X18_retries constants 2 3 local_step (world 2 ["r"; "r"] []) "make test").
  - lia.
  - reflexivity.
  - reflexivity.
  - vm_compute; reflexivity.
  - intros i Hi. exists 2, "". split; [reflexivity|discriminate].
  - intros i Hi. destruct i as [|[|i]]; [reflexivity|reflexivity|lia].
  - reflexivity.
Defined.
